(** * bt-sink-switch: the audio sink switcher of the jukebox

    A shallow embedding of
    [components/bluetooth-sink-switch/bt-sink-switch.py] and the
    properties of its sink decision, switch sequence, failure recovery
    and LED feedback.

    The script talks to three external tools ([mpc], [bluetoothctl],
    [gpiofind]/[gpioset]) through [subprocess.run].  The embedding keeps
    every such call, every [time.sleep], [print] and log record as an
    event of a trace; what a tool answers is given by an oracle that sees
    the call and the number of calls answered before it, so that a
    theorem quantified over the oracle holds for every behaviour of the
    tools, also one that changes from call to call. *)

From Stdlib Require Import Strings.String Strings.Ascii Lists.List.
From Stdlib Require Import ZArith NArith QArith Bool Lia.
From Stdlib Require Import DecimalString.
Import ListNotations.

Local Open Scope string_scope.
Local Open Scope list_scope.

Set Implicit Arguments.

(** ** Python strings and bytes

    [bytes] values are sequences of 8-bit characters.  A [str] value is
    kept as its UTF-8 encoding: [decode] checks the encoding and keeps the
    characters, and the [str] operations below act on encoded code
    points. *)

Module Py.

Definition bytes := string.
Definition str := string.

Definition code (c : ascii) : N := N_of_ascii c.

Definition in_range (lo hi : N) (c : ascii) : bool :=
  (lo <=? code c)%N && (code c <=? hi)%N.

(** States of the UTF-8 recogniser: how a code point may continue. *)
Inductive utf8_state :=
| U_start            (* at a code point boundary *)
| U_tail1            (* one continuation byte 80..BF left *)
| U_tail2            (* two continuation bytes left *)
| U_tail3            (* three continuation bytes left *)
| U_E0               (* after E0: A0..BF, then one *)
| U_ED               (* after ED: 80..9F, then one *)
| U_F0               (* after F0: 90..BF, then two *)
| U_F4.              (* after F4: 80..8F, then two *)

Definition utf8_step (st : utf8_state) (c : ascii) : option utf8_state :=
  match st with
  | U_start =>
      if in_range 0 127 c then Some U_start
      else if in_range 194 223 c then Some U_tail1
      else if in_range 224 224 c then Some U_E0
      else if in_range 225 236 c then Some U_tail2
      else if in_range 237 237 c then Some U_ED
      else if in_range 238 239 c then Some U_tail2
      else if in_range 240 240 c then Some U_F0
      else if in_range 241 243 c then Some U_tail3
      else if in_range 244 244 c then Some U_F4
      else None
  | U_tail1 => if in_range 128 191 c then Some U_start else None
  | U_tail2 => if in_range 128 191 c then Some U_tail1 else None
  | U_tail3 => if in_range 128 191 c then Some U_tail2 else None
  | U_E0 => if in_range 160 191 c then Some U_tail1 else None
  | U_ED => if in_range 128 159 c then Some U_tail1 else None
  | U_F0 => if in_range 144 191 c then Some U_tail2 else None
  | U_F4 => if in_range 128 143 c then Some U_tail2 else None
  end.

Fixpoint utf8_run (st : utf8_state) (b : bytes) : bool :=
  match b with
  | EmptyString => match st with U_start => true | _ => false end
  | String c b' =>
      match utf8_step st c with
      | Some st' => utf8_run st' b'
      | None => false
      end
  end.

(** [b.decode] for UTF-8: [None] stands for [UnicodeDecodeError]. *)
Definition decode (b : bytes) : option str :=
  if utf8_run U_start b then Some b else None.

(** [s.encode] for UTF-8. *)
Definition encode (s : str) : bytes := s.

(** The characters [str.strip()] removes, as encoded code points:
    U+0009..000D, U+001C..0020, U+0085, U+00A0, U+1680, U+2000..200A,
    U+2028, U+2029, U+202F, U+205F, U+3000. *)
Definition ascii_space (c : ascii) : bool :=
  in_range 9 13 c || in_range 28 32 c.

Definition is_byte (n : N) (c : ascii) : bool := (code c =? n)%N.

Definition space2 (c1 c2 : ascii) : bool :=
  is_byte 194 c1 && (is_byte 133 c2 || is_byte 160 c2).

Definition space3 (c1 c2 c3 : ascii) : bool :=
  (is_byte 225 c1 && is_byte 154 c2 && is_byte 128 c3)
  || (is_byte 226 c1 && is_byte 128 c2
      && (in_range 128 138 c3 || in_range 168 169 c3 || is_byte 175 c3))
  || (is_byte 226 c1 && is_byte 129 c2 && is_byte 159 c3)
  || (is_byte 227 c1 && is_byte 128 c2 && is_byte 128 c3).

(** Length in bytes of the whitespace code point a list of characters
    starts with; [0] when it starts with none. *)
Definition space_prefix (l : list ascii) : nat :=
  match l with
  | c1 :: t1 =>
      if ascii_space c1 then 1%nat
      else
        match t1 with
        | c2 :: t2 =>
            if space2 c1 c2 then 2%nat
            else
              match t2 with
              | c3 :: _ => if space3 c1 c2 c3 then 3%nat else 0%nat
              | [] => 0%nat
              end
        | [] => 0%nat
        end
  | [] => 0%nat
  end.

(** The same, read from the end of the text: the argument is the text
    reversed, so the last byte of a code point comes first. *)
Definition space_suffix (r : list ascii) : nat :=
  match r with
  | c1 :: t1 =>
      if ascii_space c1 then 1%nat
      else
        match t1 with
        | c2 :: t2 =>
            if space2 c2 c1 then 2%nat
            else
              match t2 with
              | c3 :: _ => if space3 c3 c2 c1 then 3%nat else 0%nat
              | [] => 0%nat
              end
        | [] => 0%nat
        end
  | [] => 0%nat
  end.

Fixpoint strip_with (pre : list ascii -> nat) (fuel : nat) (l : list ascii)
  : list ascii :=
  match fuel with
  | O => l
  | S fuel' =>
      match pre l with
      | O => l
      | n => strip_with pre fuel' (skipn n l)
      end
  end.

Definition lstrip_chars (l : list ascii) : list ascii :=
  strip_with space_prefix (length l) l.

Definition rstrip_chars (l : list ascii) : list ascii :=
  rev (strip_with space_suffix (length l) (rev l)).

(** [s.strip()] *)
Definition strip (s : str) : str :=
  string_of_list_ascii
    (rstrip_chars (lstrip_chars (list_ascii_of_string s))).

(** [s.split(sep)] for a separator of one character: the pieces between
    the separators, empty ones included; never the empty list. *)
Fixpoint split (sep : ascii) (s : str) : list str :=
  match s with
  | EmptyString => [EmptyString]
  | String c s' =>
      if Ascii.eqb c sep then EmptyString :: split sep s'
      else
        match split sep s' with
        | piece :: pieces => String c piece :: pieces
        | [] => [String c EmptyString]
        end
  end.

(** [str(n)] for an [int]. *)
Definition str_of_int (n : Z) : str := NilZero.string_of_int (Z.to_int n).

End Py.

(** ** Regular expressions

    The patterns of the script use literals, character classes, [.], [*]
    and [+] only; [re.search] is modelled with Brzozowski derivatives. *)

Module Re.

Inductive regex :=
| Empty                         (* matches nothing *)
| Eps                           (* matches the empty text *)
| Chr (p : ascii -> bool)       (* one character of a class *)
| Cat (r1 r2 : regex)
| Alt (r1 r2 : regex)
| Star (r : regex).

Fixpoint Lit (s : string) : regex :=
  match s with
  | EmptyString => Eps
  | String c s' => Cat (Chr (Ascii.eqb c)) (Lit s')
  end.

Definition Plus (r : regex) : regex := Cat r (Star r).

Fixpoint nullable (r : regex) : bool :=
  match r with
  | Empty => false
  | Eps => true
  | Chr _ => false
  | Cat r1 r2 => nullable r1 && nullable r2
  | Alt r1 r2 => nullable r1 || nullable r2
  | Star _ => true
  end.

Definition cat (r1 r2 : regex) : regex :=
  match r1, r2 with
  | Empty, _ => Empty
  | _, Empty => Empty
  | Eps, _ => r2
  | _, _ => Cat r1 r2
  end.

Definition alt (r1 r2 : regex) : regex :=
  match r1, r2 with
  | Empty, _ => r2
  | _, Empty => r1
  | _, _ => Alt r1 r2
  end.

Fixpoint deriv (c : ascii) (r : regex) : regex :=
  match r with
  | Empty => Empty
  | Eps => Empty
  | Chr p => if p c then Eps else Empty
  | Cat r1 r2 =>
      alt (cat (deriv c r1) r2) (if nullable r1 then deriv c r2 else Empty)
  | Alt r1 r2 => alt (deriv c r1) (deriv c r2)
  | Star r1 => cat (deriv c r1) (Star r1)
  end.

(** Some prefix of [s] matches [r]: [re.match(r, s) is not None]. *)
Fixpoint match_prefix (r : regex) (s : string) : bool :=
  nullable r ||
  match s with
  | EmptyString => false
  | String c s' => match_prefix (deriv c r) s'
  end.

(** Some part of [s] matches [r]: [re.search(r, s) is not None]. *)
Fixpoint search (r : regex) (s : string) : bool :=
  match_prefix r s ||
  match s with
  | EmptyString => false
  | String _ s' => search r s'
  end.

(** [.] : any character but a newline. *)
Definition dot (c : ascii) : bool := negb (Py.is_byte 10 c).

(** [\s] in a bytes pattern: space, \t, \n, \r, \f, \v. *)
Definition space (c : ascii) : bool :=
  Py.in_range 9 13 c || Py.is_byte 32 c.

(** [[0-9A-F:]] *)
Definition hex_colon (c : ascii) : bool :=
  Py.in_range 48 57 c || Py.in_range 65 70 c || Py.is_byte 58 c.

(** The bytes pattern [ERROR:.*output]. *)
Definition mpc_error : regex :=
  Cat (Lit "ERROR:") (Cat (Star (Chr dot)) (Lit "output")).

(** The bytes patterns [Output 2.*enabled] and [Output 3.*enabled]. *)
Definition output_enabled (n : string) : regex :=
  Cat (Lit ("Output " ++ n)) (Cat (Star (Chr dot)) (Lit "enabled")).

(** The bytes pattern [Connected:\s+yes]. *)
Definition bt_connected : regex :=
  Cat (Lit "Connected:") (Cat (Plus (Chr space)) (Lit "yes")).

Fixpoint strip_literal (lit s : string) : option string :=
  match lit with
  | EmptyString => Some s
  | String a lit' =>
      match s with
      | String b s' => if Ascii.eqb a b then strip_literal lit' s' else None
      | EmptyString => None
      end
  end.

Fixpoint span (p : ascii -> bool) (s : string) : string * string :=
  match s with
  | EmptyString => (EmptyString, EmptyString)
  | String c s' =>
      if p c then let (a, b) := span p s' in (String c a, b)
      else (EmptyString, s)
  end.

(** [re.search] of the device pattern in a line, giving [group(1)]: the
    pattern is [^Device ], a group of any number of [[0-9A-F:]], and a
    space.  It is anchored at the start of the text.  The group is greedy
    and the character after it must be a space, which is not in the
    class: only the longest run of class characters can be followed by
    the space, so the group is that run. *)
Definition device (line : string) : option string :=
  match strip_literal "Device " line with
  | None => None
  | Some rest =>
      let (group1, after) := span hex_colon rest in
      match after with
      | String c _ => if Py.is_byte 32 c then Some group1 else None
      | EmptyString => None
      end
  end.

End Re.

(** ** Events, the oracle and the monad of the script *)

(** What [subprocess.run(..., check=False, stdout=PIPE, stderr=STDOUT)]
    returns: the exit status and the merged output. *)
Record CompletedProcess := { returncode : Z; stdout : Py.bytes }.

Inductive call :=
| Shell (cmdline : string)       (* [subprocess.run(cmdline, shell=True)] *)
| Exec (argv : list string).     (* [subprocess.run(argv, shell=False)] *)

Inductive level := DEBUG | INFO | WARNING | ERROR.

Inductive logged :=
| LStr (s : Py.str)
| LBytes (b : Py.bytes)
| LProc (p : CompletedProcess).

Inductive event :=
| EvRun (c : call) (r : CompletedProcess)
| EvSleep (seconds : Q)
| EvPrint (line : Py.str)
| EvLog (lvl : level) (msg : logged).

(** The answer of the tools to a call, given how many calls of the
    invocation were answered before it.  The script is sequential and
    deterministic, so every behaviour of the tools during one invocation
    is such a function.  The answers are those of processes that were
    started: the shell and the four programs are taken to be installed,
    so the [OSError] of a program that cannot be started is outside the
    model. *)
Definition oracle := nat -> call -> CompletedProcess.

(** The number of tool calls in a piece of trace. *)
Fixpoint ncalls (t : list event) : nat :=
  match t with
  | [] => O
  | EvRun _ _ :: t' => S (ncalls t')
  | _ :: t' => ncalls t'
  end.

Inductive exn := TypeError | IndexError | UnicodeDecodeError | ValueError.

Inductive outcome (A : Type) :=
| Normal (a : A)      (* the statement ran to its end *)
| Returned            (* a bare [return] was executed *)
| Raised (e : exn).   (* an exception is propagating *)

Arguments Normal {A} a.
Arguments Returned {A}.
Arguments Raised {A} e.

(** A computation reads the oracle and the number of calls made so far,
    and gives its outcome and the events it emitted, oldest first. *)
Definition M (A : Type) := oracle -> nat -> outcome A * list event.

Definition ret {A} (a : A) : M A := fun _ _ => (Normal a, []).

Definition bind {A B} (m : M A) (f : A -> M B) : M B :=
  fun env k =>
    let (o, e1) := m env k in
    match o with
    | Normal a => let (o', e2) := f a env (ncalls e1 + k)%nat in (o', e1 ++ e2)
    | Returned => (Returned, e1)
    | Raised e => (Raised e, e1)
    end.

Notation "x <- m ;; k" := (bind m (fun x => k))
  (at level 61, m at next level, right associativity).
Notation "m ;; k" := (bind m (fun _ => k))
  (at level 61, right associativity).

Definition emit (e : event) : M unit := fun _ _ => (Normal tt, [e]).
Definition raise {A} (e : exn) : M A := fun _ _ => (Raised e, []).
Definition return_ : M unit := fun _ _ => (Returned, []).

(** The body of a [def] without a result: a [return] ends the call. *)
Definition func (body : M unit) : M unit :=
  fun env k =>
    let (o, e) := body env k in
    match o with
    | Normal _ | Returned => (Normal tt, e)
    | Raised x => (Raised x, e)
    end.

Definition when (c : bool) (m : M unit) : M unit := if c then m else ret tt.

Fixpoint for_each {A} (l : list A) (body : A -> M unit) : M unit :=
  match l with
  | [] => ret tt
  | x :: l' => body x ;; for_each l' body
  end.

(** A list comprehension [[f(x) for x in l]]. *)
Fixpoint comprehension {A B} (f : A -> M B) (l : list A) : M (list B) :=
  match l with
  | [] => ret []
  | x :: l' => y <- f x ;; ys <- comprehension f l' ;; ret (y :: ys)
  end.

(** [l[i]] *)
Definition index {A} (l : list A) (i : nat) : M A :=
  match nth_error l i with
  | Some x => ret x
  | None => raise IndexError
  end.

Definition decode (b : Py.bytes) : M Py.str :=
  match Py.decode b with
  | Some s => ret s
  | None => raise UnicodeDecodeError
  end.

(** A text with a NUL character is no argument of a process. *)
Definition has_nul (s : string) : bool :=
  existsb (Py.is_byte 0) (list_ascii_of_string s).

(** The texts of a call that are handed to the system as arguments: the
    command line after [sh -c], or the argument list. *)
Definition call_args (c : call) : list string :=
  match c with
  | Shell cmdline => [cmdline]
  | Exec argv => argv
  end.

(** [subprocess.run] converts the arguments before it starts a process
    and refuses an argument with an embedded NUL with [ValueError]. *)
Definition startable (c : call) : bool :=
  negb (existsb has_nul (call_args c)).

(** The process runs and its answer is read. *)
Definition start (c : call) : M CompletedProcess :=
  fun env k => let r := env k c in (Normal r, [EvRun c r]).

Definition subprocess_run (c : call) : M CompletedProcess :=
  if startable c then start c else raise ValueError.

(** The conversion of an argument list whose items are Python values,
    item by item: an item that is [None] is refused with [TypeError], a
    text with an embedded NUL with [ValueError]. *)
Fixpoint check_args (argv : list (option Py.str)) : exn + list Py.str :=
  match argv with
  | [] => inr []
  | None :: _ => inl TypeError
  | Some s :: argv' =>
      if has_nul s then inl ValueError
      else
        match check_args argv' with
        | inr args => inr (s :: args)
        | inl e => inl e
        end
  end.

(** [subprocess.run(argv, shell=False)] for a list whose items are Python
    values: no process is started when an item is refused. *)
Definition subprocess_run_list (argv : list (option Py.str))
  : M CompletedProcess :=
  match check_args argv with
  | inr args => start (Exec args)
  | inl e => raise e
  end.

Definition sleep (seconds : Q) : M unit := emit (EvSleep seconds).
Definition print (line : Py.str) : M unit := emit (EvPrint line).
Definition logger_debug (msg : logged) : M unit := emit (EvLog DEBUG msg).
Definition logger_error (msg : Py.str) : M unit := emit (EvLog ERROR (LStr msg)).

Definition dquote : string := String (ascii_of_nat 34) EmptyString.
Definition newline : ascii := ascii_of_nat 10.
Definition blank : ascii := ascii_of_nat 32.

(** ** The script *)

Definition bt_check_mpc_err : M unit :=
  func (
    logger_debug (LStr "bt_check_mpc_err()") ;;
    mpcproc <- subprocess_run (Shell "mpc status") ;;
    logger_debug (LBytes (stdout mpcproc)) ;;
    let mpcerr := Re.search Re.mpc_error (stdout mpcproc) in
    when mpcerr (
      mpcplay <- subprocess_run (Shell "mpc play") ;;
      logger_debug (LProc mpcplay))).

Definition bt_led (led_pin : option (list Py.str)) (isEnabled : bool)
  : M unit :=
  func (
    match led_pin with
    | None => return_
    | Some pin =>
        chip <- index pin 0 ;;
        line <- index pin 1 ;;
        proc <- subprocess_run
                  (Exec ["gpioset"; chip;
                         (line ++ "=" ++ (if isEnabled then "1" else "0"))%string]) ;;
        let msg := ("LED " ++ (if isEnabled then "on" else "off") ++ ": ")%string in
        logger_debug (LBytes (Py.encode msg ++ stdout proc)%string)
    end).

Definition bt_leds (led_pins : list (option (list Py.str)))
  (led_states : list bool) : M unit :=
  func (
    for_each (seq 0 (length led_pins)) (fun i =>
      led_pin <- index led_pins i ;;
      led_state <- index led_states i ;;
      bt_led led_pin led_state)).

Definition bt_switch_to (output_id : Z)
  (led_pins : list (option (list Py.str))) (led_states : list bool) : M unit :=
  func (
    print ("Switched audio sink to " ++ dquote ++ "Output "
           ++ Py.str_of_int output_id ++ dquote)%string ;;
    print ("mpc enable " ++ Py.str_of_int output_id
           ++ "; sleep 0.1; mpc enable " ++ Py.str_of_int output_id
           ++ " only")%string ;;
    proc <- subprocess_run (Exec ["mpc"; "enable"; Py.str_of_int output_id]) ;;
    logger_debug (LBytes (stdout proc)) ;;
    sleep (1 # 10) ;;
    proc <- subprocess_run
              (Exec ["mpc"; "enable"; "only"; Py.str_of_int output_id]) ;;
    logger_debug (LBytes (stdout proc)) ;;
    bt_check_mpc_err ;;
    bt_leds led_pins led_states).

Definition bt_find_led_pin (led_pin : option Py.str)
  : M (option (list Py.str)) :=
  proc <- subprocess_run_list [Some "gpiofind"; led_pin] ;;
  logger_debug (LBytes (stdout proc)) ;;
  if negb (returncode proc =? 0)%Z then
    logger_error "GPIO for LED not found" ;;
    ret None
  else
    text <- decode (stdout proc) ;;
    ret (Some (Py.split blank (Py.strip text))).

Definition bt_connect_all : M unit :=
  func (
    btDevices_console <- subprocess_run (Shell "bluetoothctl devices") ;;
    logger_debug (LBytes (stdout btDevices_console)) ;;
    text <- decode (stdout btDevices_console) ;;
    for_each (Py.split newline (Py.strip text)) (fun line =>
      match Re.device line with
      | None => ret tt
      | Some device =>
          c <- subprocess_run (Exec ["bluetoothctl"; "connect"; device]) ;;
          logger_debug (LBytes (stdout c))
      end)).

Definition bt_switch (cmd : Py.str) (led_pins : list (option Py.str))
  : M unit :=
  func (
    when (negb (cmd =? "toggle")%string && negb (cmd =? "speakers")%string
          && negb (cmd =? "headphones")%string && negb (cmd =? "toggle2")%string
          && negb (cmd =? "headphones2")%string) (
      logger_error "Invalid command. Doing nothing." ;;
      return_) ;;
    led_pins <- comprehension bt_find_led_pin led_pins ;;
    isOutputsOn_console <- subprocess_run (Shell "mpc outputs") ;;
    logger_debug (LBytes (stdout isOutputsOn_console)) ;;
    let isOutput2On :=
      Re.search (Re.output_enabled "2") (stdout isOutputsOn_console) in
    let isOutput3On :=
      Re.search (Re.output_enabled "3") (stdout isOutputsOn_console) in
    (if ((cmd =? "toggle")%string && negb isOutput2On)
        || (cmd =? "headphones")%string
     then
       isBtConnected_console <- subprocess_run (Shell "bluetoothctl info") ;;
       logger_debug (LBytes (stdout isBtConnected_console)) ;;
       let isBtConnected :=
         Re.search Re.bt_connected (stdout isBtConnected_console) in
       if isBtConnected then
         bt_switch_to 2 led_pins [true; false] ;;
         return_
       else
         print ("No bluetooth device connected. Defaulting to " ++ dquote
                ++ "Output 1" ++ dquote ++ ".")%string ;;
         bt_connect_all ;;
         let sleeptime := 1 # 4 in
         for_each (seq 0 3) (fun _ =>
           bt_leds led_pins [true; false] ;;
           sleep sleeptime ;;
           bt_leds led_pins [false; false] ;;
           sleep sleeptime)
     else if ((cmd =? "toggle2")%string && negb isOutput3On)
             || (cmd =? "headphones2")%string
     then
       bt_switch_to 3 led_pins [false; true] ;;
       return_
     else ret tt) ;;
    bt_switch_to 1 led_pins [false; false]).

(** One invocation: the outcome and the trace, no call made before. *)
Definition run {A} (m : M A) (env : oracle) : outcome A * list event :=
  m env O.

(** ** The LED configuration and the script as a program

    [get_led_pin_config] reads the pin names with [configparser]; the
    script reads its arguments, the configuration, and calls
    [bt_switch].  What the configuration file holds is given like the
    answers of the tools: by what [read] finds at a path, and by what the
    parser says about a section and its keys. *)

(** What [cfg[section].get(key, fallback=None)] gives. *)
Inductive lookup :=
| Absent                 (* no such key: the fallback, [None] *)
| Present (v : Py.str)   (* the value of the key *)
| Broken.                (* a value that cannot be interpolated: [get] raises *)

(** A [ConfigParser] after [read], as far as the script looks at it:
    [name in cfg] and [cfg[name].get(key, fallback=None)]. *)
Record ConfigParser := {
  contains : Py.str -> bool;
  get : Py.str -> Py.str -> lookup
}.

(** The parser that has read no file. *)
Definition empty_parser : ConfigParser :=
  {| contains := fun _ => false; get := fun _ _ => Absent |}.

(** What [cfg.read(path)] finds at a path. *)
Inductive file :=
| NoFile                   (* the file cannot be opened: it is skipped *)
| BadFile                  (* the file cannot be parsed: [read] raises *)
| File (cfg : ConfigParser).

Record filesystem := {
  script_dir : Py.str;     (* [os.path.dirname(os.path.realpath(__file__))] *)
  read : Py.str -> file
}.

Inductive config_exn := ParsingError | InterpolationError.

(** A computation that logs and may raise an error of [configparser]. *)
Definition C (A : Type) : Type := (config_exn + A) * list event.

Definition cret {A} (a : A) : C A := (inr a, []).

Definition cbind {A B} (m : C A) (f : A -> C B) : C B :=
  match m with
  | (inl e, t) => (inl e, t)
  | (inr a, t) => let (r, t') := f a in (r, t ++ t')
  end.

Notation "x <~ m ;; k" := (cbind m (fun x => k))
  (at level 61, m at next level, right associativity).
Notation "m ;~ k" := (cbind m (fun _ => k))
  (at level 61, right associativity).

Definition log (lvl : level) (msg : Py.str) : C unit :=
  (inr tt, [EvLog lvl (LStr msg)]).

(** [os.path.isabs] *)
Definition isabs (path : Py.str) : bool := String.prefix "/" path.

(** [cfg.read(path)]: the parser afterwards and whether the list of the
    files read is not empty. *)
Definition cfg_read (fs : filesystem) (path : Py.str)
  : C (ConfigParser * bool) :=
  match read fs path with
  | NoFile => cret (empty_parser, false)
  | BadFile => (inl ParsingError, [])
  | File cfg => cret (cfg, true)
  end.

Definition cfg_get (cfg : ConfigParser) (section key : Py.str)
  : C (option Py.str) :=
  match get cfg section key with
  | Absent => cret None
  | Present v => cret (Some v)
  | Broken => (inl InterpolationError, [])
  end.

(** [not v] for a value that is [None] or a [str]. *)
Definition falsy (v : option Py.str) : bool :=
  match v with
  | None => true
  | Some s => (s =? "")%string
  end.

(** [v] inside an f-string. *)
Definition format (v : option Py.str) : Py.str :=
  match v with
  | None => "None"
  | Some s => s
  end.

Definition get_led_pin_config (fs : filesystem) (cfg_file : Py.str)
  : C (list (option Py.str)) :=
  let cfg_file :=
    if negb (isabs cfg_file) then (script_dir fs ++ "/" ++ cfg_file)%string
    else cfg_file in
  log DEBUG ("Reading config file: '" ++ cfg_file ++ "'")%string ;~
  cfg_and_success <~ cfg_read fs cfg_file ;;
  let cfg := fst cfg_and_success in
  let cfg_file_success := snd cfg_and_success in
  (if negb cfg_file_success then
     log DEBUG ("Could not read '" ++ cfg_file
                ++ "'. Continue with default values (i.e. led off).")%string
   else cret tt) ;~
  let section_name := "BluetoothToggleLed" in
  pins <~ (if contains cfg section_name then
             led_pin <~ cfg_get cfg section_name "led_pin" ;;
             led_pin2 <~ cfg_get cfg section_name "led_pin2" ;;
             led_pin <~ (if falsy led_pin then
                           log WARNING "Could not find 'led_pin'" ;~
                           cret None
                         else cret led_pin) ;;
             led_pin2 <~ (if falsy led_pin2 then
                            log WARNING "Could not find 'led_pin2'" ;~
                            cret None
                          else cret led_pin2) ;;
             cret (led_pin, led_pin2)
           else
             log DEBUG ("No section " ++ section_name
                        ++ " found. Defaulting to led_pin = None")%string ;~
             cret (None, None)) ;;
  log DEBUG ("Using LED pin = " ++ format (fst pins) ++ ", "
             ++ format (snd pins))%string ;~
  cret [fst pins; snd pins].

Definition bt_usage (sname : Py.str) : M unit :=
  func (
    print "Usage" ;;
    print ("  ./" ++ sname
           ++ " toggle | speakers | headphones | toggle2 | headphones2 [debug]")%string).

(** How the script ends. *)
Inductive ended :=
| Completed
| Uncaught (e : exn)
| UncaughtConfig (e : config_exn).

Definition ended_of (o : outcome unit) : ended :=
  match o with
  | Normal _ | Returned => Completed
  | Raised e => Uncaught e
  end.

(** The script called with the argument list [argv]: the level of the
    log console, how the script ends, and the trace. *)
Definition main (fs : filesystem) (argv : list Py.str) (env : oracle)
  : level * (ended * list event) :=
  let logconsole := if (length argv =? 3)%nat then DEBUG else INFO in
  (logconsole,
   if (2 <=? length argv)%nat && (length argv <=? 3)%nat then
     match get_led_pin_config fs "../../settings/gpio_settings.ini" with
     | (inl e, t) => (UncaughtConfig e, t)
     | (inr cfg_led_pin, t) =>
         let (o, t') :=
           run (cmd <- index argv 1 ;; bt_switch cmd cfg_led_pin) env in
         (ended_of o, t ++ t')
     end
   else
     let (o, t) := run (sname <- index argv 0 ;; bt_usage sname) env in
     (ended_of o, t)).

(** ** What a trace shows

    The observations the properties are stated with.  Each of them reads
    the events of a trace from the oldest to the newest. *)

Definition call_eqb (c1 c2 : call) : bool :=
  match c1, c2 with
  | Shell s1, Shell s2 => (s1 =? s2)%string
  | Exec a1, Exec a2 =>
      if list_eq_dec string_dec a1 a2 then true else false
  | _, _ => false
  end.

(** The answers the trace records for the calls equal to [c]. *)
Fixpoint responses (c : call) (t : list event) : list CompletedProcess :=
  match t with
  | [] => []
  | EvRun c' r :: t' =>
      if call_eqb c c' then r :: responses c t' else responses c t'
  | _ :: t' => responses c t'
  end.

Definition some_response (p : Py.bytes -> bool) (c : call) (t : list event)
  : bool :=
  existsb (fun r => p (stdout r)) (responses c t).

(** The state the script read from the player and from Bluetooth. *)
Definition output2_enabled (t : list event) : bool :=
  some_response (Re.search (Re.output_enabled "2")) (Shell "mpc outputs") t.

Definition output3_enabled (t : list event) : bool :=
  some_response (Re.search (Re.output_enabled "3")) (Shell "mpc outputs") t.

Definition bluetooth_connected (t : list event) : bool :=
  some_response (Re.search Re.bt_connected) (Shell "bluetoothctl info") t.

Definition stream_failed (t : list event) : bool :=
  some_response (Re.search Re.mpc_error) (Shell "mpc status") t.

(** The commands that change which outputs of the player are enabled. *)
Inductive enable :=
| Additive (id : string)      (* [mpc enable id] *)
| Exclusive (id : string).    (* [mpc enable only id] *)

Definition enable_of (c : call) : list enable :=
  match c with
  | Exec [p; a; n] =>
      if (p =? "mpc")%string && (a =? "enable")%string then [Additive n]
      else []
  | Exec [p; a; o; n] =>
      if (p =? "mpc")%string && (a =? "enable")%string && (o =? "only")%string
      then [Exclusive n] else []
  | _ => []
  end.

Fixpoint enable_calls (t : list event) : list enable :=
  match t with
  | [] => []
  | EvRun c _ :: t' => enable_of c ++ enable_calls t'
  | _ :: t' => enable_calls t'
  end.

Definition is_bluetoothctl (c : call) : bool :=
  match c with
  | Shell s => String.prefix "bluetoothctl" s
  | Exec (p :: _) => (p =? "bluetoothctl")%string
  | Exec [] => false
  end.

Fixpoint bluetooth_calls (t : list event) : list call :=
  match t with
  | [] => []
  | EvRun c _ :: t' =>
      if is_bluetoothctl c then c :: bluetooth_calls t' else bluetooth_calls t'
  | _ :: t' => bluetooth_calls t'
  end.

(** The calls and the pauses, without answers, prints and log records. *)
Inductive step :=
| Call (c : call)
| Pause (seconds : Q).

Fixpoint steps (t : list event) : list step :=
  match t with
  | [] => []
  | EvRun c _ :: t' => Call c :: steps t'
  | EvSleep s :: t' => Pause s :: steps t'
  | _ :: t' => steps t'
  end.

(** The enable commands and the pauses only. *)
Definition is_enable_or_pause (s : step) : bool :=
  match s with
  | Call c => match enable_of c with [] => false | _ => true end
  | Pause _ => true
  end.

(** The arguments of the [gpioset] calls: the level-set calls. *)
Fixpoint led_sets (t : list event) : list (list string) :=
  match t with
  | [] => []
  | EvRun (Exec (p :: args)) _ :: t' =>
      if (p =? "gpioset")%string then args :: led_sets t' else led_sets t'
  | _ :: t' => led_sets t'
  end.

(** The line descriptor [bt_find_led_pin] takes from an answer of
    [gpiofind]. *)
Definition descriptor (r : CompletedProcess) : option (list Py.str) :=
  if negb (returncode r =? 0)%Z then None
  else
    match Py.decode (stdout r) with
    | Some text => Some (Py.split blank (Py.strip text))
    | None => None
    end.

(** The descriptors of the LED slots, as the [gpiofind] calls of the trace
    resolved them. *)
Fixpoint resolved (t : list event) : list (option (list Py.str)) :=
  match t with
  | [] => []
  | EvRun (Exec [p; _]) r :: t' =>
      if (p =? "gpiofind")%string then descriptor r :: resolved t'
      else resolved t'
  | _ :: t' => resolved t'
  end.

Definition is_exclusive (e : event) : bool :=
  match e with
  | EvRun c _ => match enable_of c with [Exclusive _] => true | _ => false end
  | _ => false
  end.

(** The events after the last exclusive enable; [None] without one. *)
Fixpoint after_switch (t : list event) : option (list event) :=
  match t with
  | [] => None
  | e :: t' =>
      match after_switch t' with
      | Some l => Some l
      | None => if is_exclusive e then Some t' else None
      end
  end.

(** The level-set calls made after the switch: the steady LED state. *)
Definition final_leds (t : list event) : list (list string) :=
  match after_switch t with
  | Some l => led_sets l
  | None => []
  end.

(** The devices [bt_connect_all] finds in the answer of
    [bluetoothctl devices]. *)
Definition devices_in (b : Py.bytes) : list Py.str :=
  match Py.decode b with
  | Some text =>
      flat_map (fun line => match Re.device line with
                            | Some d => [d]
                            | None => []
                            end)
               (Py.split newline (Py.strip text))
  | None => []
  end.

Definition listed_devices (t : list event) : list Py.str :=
  flat_map (fun r => devices_in (stdout r))
           (responses (Shell "bluetoothctl devices") t).

(** ** The specification's tables *)

(** The level-set call of one slot: none for a slot without descriptor. *)
Definition led_call (pin : option (list Py.str)) (on : bool)
  : list (list string) :=
  match pin with
  | Some (chip :: line :: _) =>
      [[chip; (line ++ "=" ++ (if on then "1" else "0"))%string]]
  | _ => []
  end.

Definition led_calls (pins : list (option (list Py.str)))
  (states : list bool) : list (list string) :=
  flat_map (fun ps => led_call (fst ps) (snd ps)) (combine pins states).

(** The decision table of the sink decision engine, row by row; a command
    without a row has no entry. *)
Definition decision_table (cmd : string) (out2 out3 bt : bool) : option Z :=
  if (cmd =? "toggle")%string then
    if negb out2 then (if bt then Some 2%Z else Some 1%Z) else Some 1%Z
  else if (cmd =? "headphones")%string then
    if bt then Some 2%Z else Some 1%Z
  else if (cmd =? "toggle2")%string then
    if negb out3 then Some 3%Z else Some 1%Z
  else if (cmd =? "headphones2")%string then Some 3%Z
  else None.

Definition valid_command (cmd : string) : bool :=
  (cmd =? "toggle")%string || (cmd =? "speakers")%string
  || (cmd =? "headphones")%string || (cmd =? "toggle2")%string
  || (cmd =? "headphones2")%string.

(** The steady LED levels (primary, secondary) of the LED mapping. *)
Definition led_pattern (target : Z) : list bool :=
  if (target =? 2)%Z then [true; false]
  else if (target =? 3)%Z then [false; true]
  else [false; false].

(** The player, as far as the enable commands go: the additive enable
    turns one output on and leaves the others, the exclusive enable
    leaves only its output on.  A state is the list of enabled outputs. *)
Definition player_step (enabled : list string) (c : enable) : list string :=
  match c with
  | Additive id => id :: enabled
  | Exclusive id => [id]
  end.

Definition player_after (t : list event) (enabled : list string)
  : list string :=
  fold_left player_step (enable_calls t) enabled.

(** Every call of the player's client, as a command line of the shell
    or as an argument list. *)
Definition is_mpc (c : call) : bool :=
  match c with
  | Shell s => String.prefix "mpc" s
  | Exec (p :: _) => (p =? "mpc")%string
  | Exec [] => false
  end.

Fixpoint mpc_calls (t : list event) : list call :=
  match t with
  | [] => []
  | EvRun c _ :: t' => if is_mpc c then c :: mpc_calls t' else mpc_calls t'
  | _ :: t' => mpc_calls t'
  end.

(** The player, command by command: an enable command changes the
    enabled outputs as [player_step] says; the query of the outputs, the
    query of the status and the resume command leave them; of any other
    command nothing is known. *)
Definition mpc_step (enabled : option (list string)) (c : call)
  : option (list string) :=
  match enabled with
  | None => None
  | Some outputs =>
      match enable_of c with
      | [e] => Some (player_step outputs e)
      | _ =>
          match c with
          | Shell s =>
              if existsb (String.eqb s) ["mpc outputs"; "mpc status"; "mpc play"]
              then Some outputs else None
          | Exec _ => None
          end
      end
  end.

Definition outputs_after (calls : list call) (enabled : list string)
  : option (list string) :=
  fold_left mpc_step calls (Some enabled).

(** A call that sets the level of a LED. *)
Definition is_level_set (s : step) : bool :=
  match s with
  | Call (Exec (p :: _)) => (p =? "gpioset")%string
  | _ => false
  end.

(** ** The pieces of a trace

    The loop bodies of the script by name, and the events each part of an
    invocation leaves in the trace. *)

(** The body of the loop of [bt_leds]. *)
Definition leds_body (led_pins : list (option (list Py.str)))
  (led_states : list bool) (i : nat) : M unit :=
  led_pin <- index led_pins i ;;
  led_state <- index led_states i ;;
  bt_led led_pin led_state.

(** The body of the loop of [bt_connect_all]. *)
Definition connect_body (line : Py.str) : M unit :=
  match Re.device line with
  | None => ret tt
  | Some device =>
      c <- subprocess_run (Exec ["bluetoothctl"; "connect"; device]) ;;
      logger_debug (LBytes (stdout c))
  end.

(** The body of the blink loop of [bt_switch]. *)
Definition blink_body (led_pins : list (option (list Py.str))) (i : nat)
  : M unit :=
  bt_leds led_pins [true; false] ;;
  sleep (1 # 4) ;;
  bt_leds led_pins [false; false] ;;
  sleep (1 # 4).

(** Events of one tool called by its argument list, log records and,
    when [pauses] is set, pauses. *)
Definition tool_event (pauses : bool) (name : string) (e : event) : Prop :=
  match e with
  | EvRun (Exec (p :: _)) _ => p = name
  | EvLog _ _ => True
  | EvSleep _ => pauses = true
  | _ => False
  end.

Definition only_tool := tool_event false.

(** What [bt_switch_to] emits before the recovery. *)
Definition switch_events (output_id : Z) (r1 r2 : CompletedProcess)
  : list event :=
  [EvPrint ("Switched audio sink to " ++ dquote ++ "Output "
            ++ Py.str_of_int output_id ++ dquote)%string;
   EvPrint ("mpc enable " ++ Py.str_of_int output_id
            ++ "; sleep 0.1; mpc enable " ++ Py.str_of_int output_id
            ++ " only")%string;
   EvRun (Exec ["mpc"; "enable"; Py.str_of_int output_id]) r1;
   EvLog DEBUG (LBytes (stdout r1));
   EvSleep (1 # 10);
   EvRun (Exec ["mpc"; "enable"; "only"; Py.str_of_int output_id]) r2;
   EvLog DEBUG (LBytes (stdout r2))].

(** What [bt_check_mpc_err] emits, given the answers to the status query
    and to the resume command. *)
Definition recovery_events (status play : CompletedProcess) : list event :=
  [EvLog DEBUG (LStr "bt_check_mpc_err()");
   EvRun (Shell "mpc status") status;
   EvLog DEBUG (LBytes (stdout status))]
  ++ (if Re.search Re.mpc_error (stdout status)
      then [EvRun (Shell "mpc play") play; EvLog DEBUG (LProc play)]
      else []).

Definition led_steps (pins : list (option (list Py.str)))
  (states : list bool) : list step :=
  map (fun a => Call (Exec ("gpioset" :: a))) (led_calls pins states).

Definition connect_steps (devices : list Py.str) : list step :=
  map (fun d => Call (Exec ["bluetoothctl"; "connect"; d])) devices.

Definition find_steps (names : list Py.str) : list step :=
  map (fun n => Call (Exec ["gpiofind"; n])) names.

(** One blink cycle: primary on and secondary off, a quarter of a second,
    both off, a quarter of a second. *)
Definition blink_steps (pins : list (option (list Py.str))) : list step :=
  led_steps pins [true; false] ++ [Pause (1 # 4)]
  ++ led_steps pins [false; false] ++ [Pause (1 # 4)].

(** The four ways through [bt_switch] between the query of the outputs
    and the switch. *)
Inductive path :=
| ToBluetooth (info : CompletedProcess)
| Fallback (info devices : CompletedProcess) (connects blinks : list event)
| ToSecondary
| ToSpeakers.

Definition path_target (p : path) : Z :=
  match p with
  | ToBluetooth _ => 2
  | Fallback _ _ _ _ => 1
  | ToSecondary => 3
  | ToSpeakers => 1
  end.

Definition path_events (p : path) : list event :=
  match p with
  | ToBluetooth info =>
      [EvRun (Shell "bluetoothctl info") info;
       EvLog DEBUG (LBytes (stdout info))]
  | Fallback info devices connects blinks =>
      [EvRun (Shell "bluetoothctl info") info;
       EvLog DEBUG (LBytes (stdout info));
       EvPrint ("No bluetooth device connected. Defaulting to " ++ dquote
                ++ "Output 1" ++ dquote ++ ".")%string;
       EvRun (Shell "bluetoothctl devices") devices;
       EvLog DEBUG (LBytes (stdout devices))]
      ++ connects ++ blinks
  | ToSecondary => []
  | ToSpeakers => []
  end.

(** The events of a path followed by the rest of the trace. *)
Definition path_then (p : path) (rest : list event) : list event :=
  match p with
  | ToBluetooth info =>
      EvRun (Shell "bluetoothctl info") info
      :: EvLog DEBUG (LBytes (stdout info)) :: rest
  | Fallback info devices connects blinks =>
      EvRun (Shell "bluetoothctl info") info
      :: EvLog DEBUG (LBytes (stdout info))
      :: EvPrint ("No bluetooth device connected. Defaulting to " ++ dquote
                  ++ "Output 1" ++ dquote ++ ".")%string
      :: EvRun (Shell "bluetoothctl devices") devices
      :: EvLog DEBUG (LBytes (stdout devices))
      :: connects ++ blinks ++ rest
  | ToSecondary => rest
  | ToSpeakers => rest
  end.

(** When a path is taken, and what its loops emitted. *)
Definition path_taken (cmd : Py.str) (outputs : CompletedProcess)
  (pins : list (option (list Py.str))) (p : path) : Prop :=
  let out2 := Re.search (Re.output_enabled "2") (stdout outputs) in
  let out3 := Re.search (Re.output_enabled "3") (stdout outputs) in
  match p with
  | ToBluetooth info =>
      ((cmd = "toggle" /\ out2 = false) \/ cmd = "headphones")
      /\ Re.search Re.bt_connected (stdout info) = true
  | Fallback info devices connects blinks =>
      ((cmd = "toggle" /\ out2 = false) \/ cmd = "headphones")
      /\ Re.search Re.bt_connected (stdout info) = false
      /\ Forall (only_tool "bluetoothctl") connects
      /\ steps connects = connect_steps (devices_in (stdout devices))
      /\ Forall (tool_event true "gpioset") blinks
      /\ steps blinks = blink_steps pins ++ blink_steps pins ++ blink_steps pins
  | ToSecondary => (cmd = "toggle2" /\ out3 = false) \/ cmd = "headphones2"
  | ToSpeakers =>
      cmd = "speakers" \/ (cmd = "toggle" /\ out2 = true)
      \/ (cmd = "toggle2" /\ out3 = true)
  end.

(** The trace of an invocation that recognised its command and ran to
    its end. *)
Inductive shape (cmd : Py.str) (led_pins : list (option Py.str))
  : list event -> Prop :=
| Shape (names : list Py.str) (finds leds : list event)
    (outputs r1 r2 status play : CompletedProcess) (p : path) :
    led_pins = map Some names ->
    Forall (only_tool "gpiofind") finds ->
    steps finds = find_steps names ->
    path_taken cmd outputs (resolved finds) p ->
    Forall (only_tool "gpioset") leds ->
    led_sets leds = led_calls (resolved finds) (led_pattern (path_target p)) ->
    steps leds = led_steps (resolved finds) (led_pattern (path_target p)) ->
    shape cmd led_pins
      (finds
       ++ [EvRun (Shell "mpc outputs") outputs;
           EvLog DEBUG (LBytes (stdout outputs))]
       ++ path_events p
       ++ switch_events (path_target p) r1 r2
       ++ recovery_events status play
       ++ leds).

(** ** Sample answers of the tools

    Tools that answer with fixed texts, for the examples. *)

Definition answer (code : Z) (out : Py.bytes) : CompletedProcess :=
  {| returncode := code; stdout := out |}.

Definition line (s : string) : string :=
  (s ++ String newline EmptyString)%string.

Definition canned (outputs info devices status : Py.bytes) : oracle :=
  fun _ c =>
    match c with
    | Shell s =>
        if (s =? "mpc outputs")%string then answer 0 outputs
        else if (s =? "bluetoothctl info")%string then answer 0 info
        else if (s =? "bluetoothctl devices")%string then answer 0 devices
        else if (s =? "mpc status")%string then answer 0 status
        else answer 0 ""
    | Exec [p; name] =>
        if (p =? "gpiofind")%string then
          if (name =? "GPIO27")%string then answer 0 (line "gpiochip0 27")
          else if (name =? "GPIO17")%string then answer 0 (line "gpiochip0 17")
          else answer 1 ""
        else answer 0 ""
    | Exec _ => answer 0 ""
    end.

Definition outputs_speakers : Py.bytes :=
  (line "Output 1 (Speakers) is enabled"
   ++ line "Output 2 (Headphones) is disabled"
   ++ line "Output 3 (Box) is disabled")%string.

Definition outputs_headphones : Py.bytes :=
  (line "Output 1 (Speakers) is disabled"
   ++ line "Output 2 (Headphones) is enabled"
   ++ line "Output 3 (Box) is disabled")%string.

Definition info_connected : Py.bytes :=
  (line "Device C4:FB:20:63:A7:F2 (public)"
   ++ line " Paired: yes"
   ++ line " Connected: yes")%string.

Definition info_absent : Py.bytes := line "Missing device address argument".

Definition devices_two : Py.bytes :=
  (line "Device C4:FB:20:63:A7:F2 Headset"
   ++ line "no device on this line"
   ++ line "Device 00:11:22:33:44:55 Box")%string.

Definition status_failed : Py.bytes :=
  (line "volume: 50%   repeat: off"
   ++ line "ERROR: Failed to open audio output")%string.

Definition sample_pins : list (option Py.str) :=
  [Some "GPIO27"; Some "GPIO17"].

Definition tools_connected : oracle :=
  canned outputs_speakers info_connected devices_two status_failed.

Definition tools_absent : oracle :=
  canned outputs_speakers info_absent devices_two "".

(** Tools whose [gpiofind] succeeds with a chip and no line offset. *)
Definition tools_no_offset : oracle :=
  fun k c =>
    match c with
    | Exec [p; _] =>
        if (p =? "gpiofind")%string then answer 0 (line "gpiochip0")
        else tools_connected k c
    | _ => tools_connected k c
    end.

(** ** Further observations *)

(** Every event a computation emits satisfies [P], however it ends. *)
Definition always (P : event -> Prop) {A} (m : M A) : Prop :=
  forall env k, Forall P (snd (m env k)).

(** The tool calls of a trace. *)
Fixpoint calls (t : list event) : list call :=
  match t with
  | [] => []
  | EvRun c _ :: t' => c :: calls t'
  | _ :: t' => calls t'
  end.

(** The lines printed to the standard output. *)
Fixpoint prints (t : list event) : list Py.str :=
  match t with
  | [] => []
  | EvPrint s :: t' => s :: prints t'
  | _ :: t' => prints t'
  end.

(** The pauses, in seconds. *)
Fixpoint pauses (t : list event) : list Q :=
  match t with
  | [] => []
  | EvSleep s :: t' => s :: pauses t'
  | _ :: t' => pauses t'
  end.

(** The command lines the script hands to a shell, and the programs it
    starts with an argument list. *)
Definition shell_lines : list string :=
  ["mpc outputs"; "bluetoothctl info"; "bluetoothctl devices";
   "mpc status"; "mpc play"].

Definition programs : list string :=
  ["gpiofind"; "mpc"; "bluetoothctl"; "gpioset"].

Definition known_call (c : call) : bool :=
  match c with
  | Shell s => existsb (String.eqb s) shell_lines
  | Exec (p :: _) => existsb (String.eqb p) programs
  | Exec [] => false
  end.

(** The log records a handler set to the level [console] shows. *)
Definition level_rank (lvl : level) : nat :=
  match lvl with
  | DEBUG => 10
  | INFO => 20
  | WARNING => 30
  | ERROR => 40
  end.

Fixpoint shown (console : level) (t : list event) : list (level * logged) :=
  match t with
  | [] => []
  | EvLog lvl msg :: t' =>
      if (level_rank console <=? level_rank lvl)%nat
      then (lvl, msg) :: shown console t'
      else shown console t'
  | _ :: t' => shown console t'
  end.

(** A descriptor [bt_led] can use: none, or a chip and a line offset
    that can be arguments of [gpioset]. *)
Definition usable (pin : option (list Py.str)) : bool :=
  match pin with
  | None => true
  | Some (chip :: line :: _) => negb (has_nul chip) && negb (has_nul line)
  | Some _ => false
  end.

(** An answer of [gpiofind] that [bt_find_led_pin] turns into a usable
    descriptor: a failure, or a text of at least two fields of which the
    first two can be arguments. *)
Definition well_formed_find (r : CompletedProcess) : bool :=
  negb (returncode r =? 0)%Z ||
  match Py.decode (stdout r) with
  | Some text => usable (Some (Py.split blank (Py.strip text)))
  | None => false
  end.

(** The pauses among the steps. *)
Fixpoint step_pauses (l : list step) : list Q :=
  match l with
  | [] => []
  | Pause s :: l' => s :: step_pauses l'
  | Call _ :: l' => step_pauses l'
  end.

(** The command asks for the Bluetooth output, given whether the player
    reported output 2 enabled. *)
Definition asks_bluetooth (cmd : Py.str) (out2 : bool) : bool :=
  ((cmd =? "toggle")%string && negb out2) || (cmd =? "headphones")%string.

(** The lines the script prints. *)
Definition no_device_line : Py.str :=
  ("No bluetooth device connected. Defaulting to " ++ dquote
   ++ "Output 1" ++ dquote ++ ".")%string.

Definition switch_lines (output_id : Z) : list Py.str :=
  [("Switched audio sink to " ++ dquote ++ "Output "
    ++ Py.str_of_int output_id ++ dquote)%string;
   ("mpc enable " ++ Py.str_of_int output_id
    ++ "; sleep 0.1; mpc enable " ++ Py.str_of_int output_id
    ++ " only")%string].

(** A device list with a name in Latin-1: not valid UTF-8. *)
Definition devices_latin1 : Py.bytes :=
  ("Device C4:FB:20:63:A7:F2 Caf"
   ++ String (ascii_of_nat 233) (String newline EmptyString))%string.

Definition tools_latin1 : oracle :=
  canned outputs_speakers info_absent devices_latin1 "".

(** The slot a key of the section gives: its value unless the key is
    missing or its value is empty. *)
Definition slot (v : lookup) : option Py.str :=
  match v with
  | Present s => if (s =? "")%string then None else Some s
  | _ => None
  end.

(** The path [get_led_pin_config] reads. *)
Definition config_path (fs : filesystem) (cfg_file : Py.str) : Py.str :=
  if isabs cfg_file then cfg_file
  else (script_dir fs ++ "/" ++ cfg_file)%string.

(** The texts a pattern matches as a whole. *)
Inductive matches : Re.regex -> string -> Prop :=
| M_eps : matches Re.Eps ""
| M_chr p c : p c = true -> matches (Re.Chr p) (String c "")
| M_cat r1 r2 s1 s2 :
    matches r1 s1 -> matches r2 s2 -> matches (Re.Cat r1 r2) (s1 ++ s2)
| M_alt_l r1 r2 s : matches r1 s -> matches (Re.Alt r1 r2) s
| M_alt_r r1 r2 s : matches r2 s -> matches (Re.Alt r1 r2) s
| M_star_nil r : matches (Re.Star r) ""
| M_star_cons r s1 s2 :
    matches r s1 -> matches (Re.Star r) s2 -> matches (Re.Star r) (s1 ++ s2).

(** Every character of a text is in a class. *)
Definition all_in (p : ascii -> bool) (s : string) : bool :=
  forallb p (list_ascii_of_string s).

(** A configuration file with both keys, one with a key only, and a file
    system that holds the first at the place the script looks at. *)
Definition both_keys : ConfigParser :=
  {| contains := fun s => (s =? "BluetoothToggleLed")%string;
     get := fun _ key =>
       if (key =? "led_pin")%string then Present "GPIO27"
       else if (key =? "led_pin2")%string then Present "GPIO17"
       else Absent |}.

Definition one_key : ConfigParser :=
  {| contains := fun s => (s =? "BluetoothToggleLed")%string;
     get := fun _ key =>
       if (key =? "led_pin")%string then Present "GPIO27"
       else if (key =? "led_pin2")%string then Present ""
       else Absent |}.

Definition settings_path : Py.str :=
  "/home/pi/RPi-Jukebox-RFID/components/bluetooth-sink-switch/../../settings/gpio_settings.ini".

Definition disk (cfg : file) : filesystem :=
  {| script_dir := "/home/pi/RPi-Jukebox-RFID/components/bluetooth-sink-switch";
     read := fun path => if (path =? settings_path)%string then cfg else NoFile |}.

(** ** Symbolic execution of the monad *)

Arguments Py.str_of_int : simpl never.
Arguments Re.search : simpl never.
Arguments Re.device : simpl never.
Arguments Py.decode : simpl never.
Arguments Py.strip : simpl never.
Arguments Py.split : simpl never.
Arguments String.append : simpl never.
Arguments startable : simpl never.
Arguments has_nul : simpl never.

(** The argument check of a call whose arguments are known. *)
Ltac settle_args :=
  repeat match goal with
         | |- context [startable ?c] =>
             let b := eval vm_compute in (startable c) in
             match b with
             | true => change (startable c) with true
             | false => change (startable c) with false
             end
         | |- context [has_nul ?s] =>
             let b := eval vm_compute in (has_nul s) in
             match b with
             | true => change (has_nul s) with true
             | false => change (has_nul s) with false
             end
         end.

Ltac settle_args_in H :=
  repeat match type of H with
         | context [startable ?c] =>
             let b := eval vm_compute in (startable c) in
             match b with
             | true => change (startable c) with true in H
             | false => change (startable c) with false in H
             end
         | context [has_nul ?s] =>
             let b := eval vm_compute in (has_nul s) in
             match b with
             | true => change (has_nul s) with true in H
             | false => change (has_nul s) with false in H
             end
         end.

Ltac exec1 :=
  cbv beta iota zeta delta [bind emit func ret when index decode
    subprocess_run subprocess_run_list start sleep print logger_debug
    logger_error raise return_ run];
  cbn [app fst snd nth_error seq length for_each comprehension check_args
       ncalls Nat.add];
  settle_args.
Ltac exec := repeat (progress exec1).

Ltac exec1_in H :=
  cbv beta iota zeta delta [bind emit func ret when index decode
    subprocess_run subprocess_run_list start sleep print logger_debug
    logger_error raise return_ run] in H;
  cbn [app fst snd nth_error seq length for_each comprehension check_args
       ncalls Nat.add] in H;
  settle_args_in H.
Ltac exec_in H := repeat (progress exec1_in H).

Ltac pair_inv H := inversion H; subst; clear H.

(** The two cases of the argument check of a call. *)
Ltac split_args :=
  match goal with
  | |- context [startable ?c] => destruct (startable c) eqn:?
  | |- context [has_nul ?s] => destruct (has_nul s) eqn:?
  end.

Lemma func_not_returned (body : M unit) env k :
  fst (func body env k) <> Returned.
Proof.
  unfold func. destruct (body env k) as [[a| |x] e]; simpl; discriminate.
Qed.

(** ** The LED actuator *)

Lemma bt_led_events pin on env k :
  Forall (only_tool "gpioset") (snd (bt_led pin on env k)).
Proof.
  unfold bt_led. destruct pin as [[|chip [|line rest]]|]; exec;
    try split_args; exec; simpl; repeat constructor.
Qed.

Lemma bt_led_normal pin on env k evs :
  bt_led pin on env k = (Normal tt, evs) ->
  led_sets evs = led_call pin on /\
  steps evs = map (fun a => Call (Exec ("gpioset" :: a))) (led_call pin on).
Proof.
  unfold bt_led. destruct pin as [[|chip [|line rest]]|]; exec;
    try split_args; exec; intros H;
    try discriminate; pair_inv H; simpl; auto.
Qed.

Lemma skipn_nth_error {A} (l : list A) i x :
  nth_error l i = Some x -> skipn i l = x :: skipn (S i) l.
Proof.
  revert i. induction l as [|y l IH]; intros [|i] H; simpl in *;
    try discriminate.
  - now injection H as ->.
  - now apply IH.
Qed.

Lemma leds_loop_events pins states env n : forall i k,
  Forall (only_tool "gpioset")
    (snd (for_each (seq i n) (leds_body pins states) env k)).
Proof.
  induction n as [|n IH]; intros i k.
  - simpl. constructor.
  - cbn [seq for_each]. unfold bind at 1.
    destruct (leds_body pins states i env k) as [o e] eqn:E.
    assert (He : Forall (only_tool "gpioset") e).
    { unfold leds_body in E. revert E. exec.
      destruct (nth_error pins i) as [pin|]; exec;
        [|intros E; pair_inv E; constructor].
      destruct (nth_error states i) as [st|]; exec;
        [|intros E; pair_inv E; constructor].
      pose proof (bt_led_events pin st env k) as Hl.
      destruct (bt_led pin st env k) as [[a| |x] el]; simpl in Hl;
        intros E; pair_inv E; rewrite ?app_nil_r; exact Hl. }
    destruct o as [a| |x]; simpl; auto.
    specialize (IH (S i) (ncalls e + k)%nat).
    destruct (for_each _ _ _ _) as [o' e2]; simpl in *.
    apply Forall_app; auto.
Qed.

Lemma leds_body_normal pins states i env k e :
  leds_body pins states i env k = (Normal tt, e) ->
  exists pin st, nth_error pins i = Some pin /\ nth_error states i = Some st
    /\ bt_led pin st env k = (Normal tt, e).
Proof.
  unfold leds_body. exec.
  destruct (nth_error pins i) as [pin|]; exec; [|discriminate].
  destruct (nth_error states i) as [st|]; exec; [|discriminate].
  destruct (bt_led pin st env k) as [[[]| |x] el] eqn:E; intros H;
    try discriminate.
  pair_inv H. eauto.
Qed.

Lemma led_sets_app a b : led_sets (a ++ b) = led_sets a ++ led_sets b.
Proof.
  induction a as [|[[s|[|p args]] r| | |] a IH]; simpl; auto.
  destruct (p =? "gpioset")%string; simpl; congruence.
Qed.

Lemma steps_app a b : steps (a ++ b) = steps a ++ steps b.
Proof.
  induction a as [|[c r| | |] a IH]; simpl; congruence.
Qed.

Lemma leds_loop_normal pins states env n : forall i k evs,
  (i + n = length pins)%nat ->
  for_each (seq i n) (leds_body pins states) env k = (Normal tt, evs) ->
  led_sets evs = led_calls (skipn i pins) (skipn i states) /\
  steps evs = map (fun a => Call (Exec ("gpioset" :: a)))
                  (led_calls (skipn i pins) (skipn i states)).
Proof.
  induction n as [|n IH]; intros i k evs Hlen.
  - simpl. intros H. pair_inv H.
    rewrite skipn_all2 by lia. auto.
  - cbn [seq for_each]. unfold bind at 1.
    destruct (leds_body pins states i env k) as [[[]| |x] e] eqn:E;
      try discriminate.
    destruct (for_each _ _ _ _) as [o' e2] eqn:E2. intros H. pair_inv H.
    apply leds_body_normal in E. destruct E as (pin & st & Hp & Hs & E).
    apply bt_led_normal in E. destruct E as [E1 E3].
    apply IH in E2; [|lia]. destruct E2 as [E2 E4].
    rewrite (skipn_nth_error _ _ Hp), (skipn_nth_error _ _ Hs).
    unfold led_calls in *. cbn [combine flat_map fst snd].
    rewrite led_sets_app, steps_app, map_app. split; congruence.
Qed.

(** ** Observations of a trace in pieces *)

Lemma responses_app c a b :
  responses c (a ++ b) = responses c a ++ responses c b.
Proof.
  induction a as [|[c' r| | |] a IH]; simpl; auto.
  destruct (call_eqb c c'); simpl; congruence.
Qed.

Lemma enable_calls_app a b :
  enable_calls (a ++ b) = enable_calls a ++ enable_calls b.
Proof.
  induction a as [|[c' r| | |] a IH]; simpl; auto.
  rewrite IH. apply app_assoc.
Qed.

Lemma bluetooth_calls_app a b :
  bluetooth_calls (a ++ b) = bluetooth_calls a ++ bluetooth_calls b.
Proof.
  induction a as [|[c' r| | |] a IH]; simpl; auto.
  destruct (is_bluetoothctl c'); simpl; congruence.
Qed.

Lemma mpc_calls_app a b : mpc_calls (a ++ b) = mpc_calls a ++ mpc_calls b.
Proof.
  induction a as [|[c' r| | |] a IH]; simpl; auto.
  destruct (is_mpc c'); simpl; congruence.
Qed.

Lemma resolved_app a b : resolved (a ++ b) = resolved a ++ resolved b.
Proof.
  induction a as [|[[s|[|p [|x [|y l]]]] r| | |] a IH]; simpl; auto.
  destruct (p =? "gpiofind")%string; simpl; congruence.
Qed.

Lemma some_response_app p c a b :
  some_response p c (a ++ b) = some_response p c a || some_response p c b.
Proof.
  unfold some_response. now rewrite responses_app, existsb_app.
Qed.

Lemma after_switch_app a b :
  after_switch (a ++ b) =
  match after_switch b with
  | Some l => Some l
  | None => option_map (fun l => l ++ b) (after_switch a)
  end.
Proof.
  induction a as [|e a IH]; simpl.
  - now destruct (after_switch b).
  - rewrite IH. destruct (after_switch b); auto.
    destruct (after_switch a); simpl; auto.
    now destruct (is_exclusive e).
Qed.

Section OneTool.

Variable pauses : bool.
Variable name : string.

Lemma responses_shell_only evs s :
  Forall (tool_event pauses name) evs -> responses (Shell s) evs = [].
Proof.
  induction 1 as [|[[s'|[|p l]] r| | |] a He Ha IH]; simpl in *;
    auto; contradiction.
Qed.

Lemma enable_calls_only evs :
  Forall (tool_event pauses name) evs -> name <> "mpc" ->
  enable_calls evs = [].
Proof.
  intros Hevs Hn.
  induction Hevs as [|[[s'|[|p l]] r| | |] a He Ha IH]; simpl in *;
    auto; try contradiction.
  subst p. rewrite IH.
  destruct l as [|x [|y [|z [|w l]]]]; simpl; try reflexivity;
    destruct (String.eqb_spec name "mpc"); simpl; congruence.
Qed.

Lemma after_switch_only evs :
  Forall (tool_event pauses name) evs -> name <> "mpc" ->
  after_switch evs = None.
Proof.
  intros Hevs Hn.
  induction Hevs as [|[[s'|[|p l]] r| | |] a He Ha IH]; simpl in *;
    auto; try contradiction; rewrite IH; auto.
  subst p.
  destruct l as [|x [|y [|z [|w l]]]]; simpl; try reflexivity;
    destruct (String.eqb_spec name "mpc"); simpl; congruence.
Qed.

Lemma led_sets_only evs :
  Forall (tool_event pauses name) evs -> name <> "gpioset" ->
  led_sets evs = [].
Proof.
  intros Hevs Hn.
  induction Hevs as [|[[s'|[|p l]] r| | |] a He Ha IH]; simpl in *;
    auto; try contradiction.
  subst p. now destruct (String.eqb_spec name "gpioset") as [->|_].
Qed.

Lemma resolved_only evs :
  Forall (tool_event pauses name) evs -> name <> "gpiofind" ->
  resolved evs = [].
Proof.
  intros Hevs Hn.
  induction Hevs as [|[[s'|[|p l]] r| | |] a He Ha IH]; simpl in *;
    auto; try contradiction.
  subst p. destruct l as [|x [|y l]]; auto.
  now destruct (String.eqb_spec name "gpiofind") as [->|_].
Qed.

Lemma bluetooth_calls_only evs :
  Forall (tool_event pauses name) evs -> name <> "bluetoothctl" ->
  bluetooth_calls evs = [].
Proof.
  intros Hevs Hn.
  induction Hevs as [|[[s'|[|p l]] r| | |] a He Ha IH]; simpl in *;
    auto; try contradiction.
  subst p. now destruct (String.eqb_spec name "bluetoothctl") as [->|_].
Qed.

Lemma mpc_calls_only evs :
  Forall (tool_event pauses name) evs -> name <> "mpc" ->
  mpc_calls evs = [].
Proof.
  intros Hevs Hn.
  induction Hevs as [|[[s'|[|p l]] r| | |] a He Ha IH]; simpl in *;
    auto; try contradiction.
  subst p. now destruct (String.eqb_spec name "mpc") as [->|_].
Qed.

Lemma some_response_shell_only evs p s :
  Forall (tool_event pauses name) evs ->
  some_response p (Shell s) evs = false.
Proof.
  intros H. unfold some_response. now rewrite (responses_shell_only s H).
Qed.

End OneTool.

Lemma enable_or_pause_only name evs :
  Forall (only_tool name) evs -> name <> "mpc" ->
  filter is_enable_or_pause (steps evs) = [].
Proof.
  intros Hevs Hn.
  induction Hevs as [|[[s'|[|p l]] r| | |] a He Ha IH]; simpl in *;
    auto; try contradiction; try discriminate.
  subst p. rewrite IH.
  destruct l as [|x [|y [|z [|w l]]]]; simpl; try reflexivity;
    destruct (String.eqb_spec name "mpc"); simpl; congruence.
Qed.

Lemma level_set_only evs :
  Forall (only_tool "gpioset") evs ->
  forallb is_level_set (steps evs) = true.
Proof.
  induction 1 as [|[[s'|[|p l]] r| | |] a He Ha IH]; simpl in *;
    auto; try contradiction; try discriminate.
  subst p. exact IH.
Qed.

Lemma only_tool_pauses name evs :
  Forall (only_tool name) evs -> Forall (tool_event true name) evs.
Proof.
  apply Forall_impl. intros [[s|[|p l]] r| | |]; simpl; auto; discriminate.
Qed.

(** ** The whole LED loop *)

Lemma bt_leds_unfold pins states :
  bt_leds pins states =
  func (for_each (seq 0 (length pins)) (leds_body pins states)).
Proof. reflexivity. Qed.

Lemma bt_leds_events pins states env k :
  Forall (only_tool "gpioset") (snd (bt_leds pins states env k)).
Proof.
  rewrite bt_leds_unfold. unfold func.
  pose proof (leds_loop_events pins states env (length pins) 0 k) as H.
  destruct (for_each _ _ _ _) as [[a| |x] e]; simpl in *; exact H.
Qed.

Lemma leds_loop_not_returned pins states env n : forall i k,
  fst (for_each (seq i n) (leds_body pins states) env k) <> Returned.
Proof.
  induction n as [|n IH]; intros i k; simpl; [discriminate|].
  unfold bind at 1, leds_body at 1. exec.
  destruct (nth_error pins i) as [pin|]; exec; [|discriminate].
  destruct (nth_error states i) as [st|]; exec; [|discriminate].
  pose proof (func_not_returned) as Hf. unfold bt_led at 1.
  match goal with |- context [func ?b env k] =>
    specialize (Hf b env k); destruct (func b env k) as [[[]| |x] e1]
  end; simpl in Hf; try congruence; try discriminate.
  specialize (IH (S i) (ncalls e1 + k)%nat).
  destruct (for_each _ _ _ _) as [o' e2]. exact IH.
Qed.

Lemma bt_leds_normal pins states env k evs :
  bt_leds pins states env k = (Normal tt, evs) ->
  led_sets evs = led_calls pins states /\
  steps evs = led_steps pins states.
Proof.
  rewrite bt_leds_unfold. unfold func, led_steps.
  pose proof (leds_loop_not_returned pins states env (length pins) 0 k) as Hr.
  destruct (for_each _ _ _ _) as [[[]| |x] e] eqn:E; intros H;
    try discriminate; pair_inv H.
  - now apply leds_loop_normal in E.
  - now elim Hr.
Qed.

Lemma bt_leds_outcome pins states env k :
  (exists evs, bt_leds pins states env k = (Normal tt, evs)) \/
  (exists x evs, bt_leds pins states env k = (Raised x, evs)).
Proof.
  pose proof (func_not_returned
                (for_each (seq 0 (length pins)) (leds_body pins states)) env k)
    as H.
  rewrite bt_leds_unfold.
  destruct (func _ env k) as [[[]| |x] e]; simpl in H; eauto.
  congruence.
Qed.

(** ** Resolution of the LED pins *)

Lemma bt_find_led_pin_spec pin env k o evs :
  bt_find_led_pin pin env k = (o, evs) ->
  Forall (only_tool "gpiofind") evs /\ o <> Returned /\
  (forall d, o = Normal d ->
     exists name, pin = Some name /\ resolved evs = [d]
       /\ steps evs = [Call (Exec ["gpiofind"; name])]).
Proof.
  unfold bt_find_led_pin. destruct pin as [name|]; exec;
    [destruct (has_nul name) eqn:En; exec|].
  - intros H; pair_inv H. split; [constructor|split; discriminate].
  - match goal with |- context [negb ?b] => destruct b eqn:Erc end;
      cbn [negb]; exec.
    + match goal with |- context [Py.decode ?b] =>
        destruct (Py.decode b) as [text|] eqn:Ed
      end; exec; intros H; pair_inv H;
        (split; [repeat constructor|split; [discriminate|]]);
        intros d Hd; pair_inv Hd.
      exists name. simpl. unfold descriptor. rewrite Erc, Ed. auto.
    + intros H; pair_inv H.
      split; [repeat constructor|split; [discriminate|]].
      intros d Hd; pair_inv Hd.
      exists name. simpl. unfold descriptor. rewrite Erc. auto.
  - intros H; pair_inv H. split; [constructor|split; discriminate].
Qed.

Lemma find_pins_spec pins : forall env k o evs,
  comprehension bt_find_led_pin pins env k = (o, evs) ->
  Forall (only_tool "gpiofind") evs /\ o <> Returned /\
  (forall ds, o = Normal ds ->
     ds = resolved evs /\
     exists names, pins = map Some names /\ steps evs = find_steps names).
Proof.
  induction pins as [|pin pins IH]; intros env k o evs.
  - simpl. intros H; pair_inv H.
    split; [constructor|split; [discriminate|]].
    intros ds Hd; pair_inv Hd. split; auto. now exists [].
  - cbn [comprehension]. unfold bind at 1.
    destruct (bt_find_led_pin pin env k) as [o1 e1] eqn:E1.
    apply bt_find_led_pin_spec in E1. destruct E1 as (F1 & R1 & N1).
    destruct o1 as [d| |x]; [|congruence|].
    + unfold bind at 1.
      destruct (comprehension _ pins env _) as [o2 e2] eqn:E2.
      apply IH in E2. destruct E2 as (F2 & R2 & N2).
      destruct (N1 d eq_refl) as (name & -> & Hr & Hs).
      destruct o2 as [ds| |x]; [|congruence|]; exec; intros H; pair_inv H.
      * rewrite app_nil_r.
        split; [now apply Forall_app|split; [discriminate|]].
        intros ds' Hd; pair_inv Hd.
        destruct (N2 ds eq_refl) as (-> & names & -> & Hs2).
        rewrite resolved_app, Hr. split; auto.
        exists (name :: names). rewrite steps_app, Hs, Hs2. auto.
      * split; [now apply Forall_app|split; discriminate].
    + intros H; pair_inv H. split; [auto|split; discriminate].
Qed.

(** ** Connecting the known devices *)

Lemma hex_colon_not_nul c : Re.hex_colon c = true -> Py.is_byte 0 c = false.
Proof.
  intros H. destruct (Py.is_byte 0 c) eqn:E; [|reflexivity].
  unfold Py.is_byte in E. apply N.eqb_eq in E.
  unfold Re.hex_colon, Py.in_range, Py.is_byte in H. rewrite E in H.
  discriminate.
Qed.

Lemma span_no_nul s : has_nul (fst (Re.span Re.hex_colon s)) = false.
Proof.
  unfold has_nul. induction s as [|c s IH]; cbn [Re.span]; [reflexivity|].
  destruct (Re.hex_colon c) eqn:Ec; [|reflexivity].
  destruct (Re.span Re.hex_colon s) as [a b].
  cbn [fst list_ascii_of_string existsb] in *.
  now rewrite (hex_colon_not_nul _ Ec), IH.
Qed.

(** A device of the list is an argument that can be handed over. *)
Lemma device_startable line d :
  Re.device line = Some d ->
  startable (Exec ["bluetoothctl"; "connect"; d]) = true.
Proof.
  unfold Re.device. destruct (Re.strip_literal "Device " line) as [rest|];
    [|discriminate].
  pose proof (span_no_nul rest) as Hn.
  destruct (Re.span Re.hex_colon rest) as [g after].
  destruct after as [|c after]; [discriminate|].
  destruct (Py.is_byte 32 c); [|discriminate].
  intros [= <-]. unfold startable. cbn [call_args existsb fst] in *.
  rewrite Hn. reflexivity.
Qed.

Lemma connect_loop lines : forall env k,
  exists evs,
    for_each lines connect_body env k = (Normal tt, evs) /\
    Forall (only_tool "bluetoothctl") evs /\
    steps evs =
    connect_steps
      (flat_map (fun line => match Re.device line with
                             | Some d => [d]
                             | None => []
                             end) lines).
Proof.
  induction lines as [|line lines IH]; intros env k.
  - exists []. simpl. repeat split; constructor.
  - cbn [for_each flat_map]. unfold bind at 1, connect_body at 1.
    destruct (Re.device line) as [d|] eqn:Ed; exec.
    + rewrite (device_startable _ Ed). exec.
      destruct (IH env (S k)) as (evs & E & F & S). rewrite E.
      eexists. split; [reflexivity|].
      split; [repeat constructor; auto|]. simpl. now rewrite S.
    + destruct (IH env k) as (evs & E & F & S). rewrite E.
      exists evs. auto.
Qed.

Lemma bt_connect_all_unfold :
  bt_connect_all =
  func (
    btDevices_console <- subprocess_run (Shell "bluetoothctl devices") ;;
    logger_debug (LBytes (stdout btDevices_console)) ;;
    text <- decode (stdout btDevices_console) ;;
    for_each (Py.split newline (Py.strip text)) connect_body).
Proof. reflexivity. Qed.

Lemma bt_connect_all_spec env k o evs :
  bt_connect_all env k = (o, evs) ->
  o <> Returned /\
  exists devices connects,
    evs = EvRun (Shell "bluetoothctl devices") devices
          :: EvLog DEBUG (LBytes (stdout devices)) :: connects /\
    Forall (only_tool "bluetoothctl") connects /\
    (o = Normal tt ->
     steps connects = connect_steps (devices_in (stdout devices))).
Proof.
  rewrite bt_connect_all_unfold. exec.
  set (r := env k (Shell "bluetoothctl devices")).
  unfold devices_in.
  destruct (Py.decode (stdout r)) as [text|] eqn:Ed; exec.
  - destruct (connect_loop (Py.split newline (Py.strip text)) env (S k))
      as (evs' & E & F & S).
    rewrite E. intros H; pair_inv H. split; [discriminate|].
    exists r, evs'. rewrite Ed. auto.
  - intros H; pair_inv H. split; [discriminate|].
    exists r, []. repeat split; auto. discriminate.
Qed.

(** ** Recovery and the switch *)

Lemma bt_check_mpc_err_eq env k :
  bt_check_mpc_err env k =
  (Normal tt,
   recovery_events (env k (Shell "mpc status")) (env (S k) (Shell "mpc play"))).
Proof.
  unfold bt_check_mpc_err, recovery_events. exec.
  destruct (Re.search _ _); reflexivity.
Qed.

Lemma digits_no_nul u : has_nul (NilEmpty.string_of_uint u) = false.
Proof.
  unfold has_nul. induction u; cbn [NilEmpty.string_of_uint
    list_ascii_of_string existsb]; auto.
Qed.

Lemma str_of_int_no_nul n : has_nul (Py.str_of_int n) = false.
Proof.
  unfold Py.str_of_int, NilZero.string_of_int, NilZero.string_of_uint.
  destruct (Z.to_int n) as [u|u]; destruct u; try reflexivity;
    try apply digits_no_nul;
    unfold has_nul; cbn [list_ascii_of_string existsb];
    apply digits_no_nul.
Qed.

(** The enable commands can always be handed over. *)
Lemma enable_startable n :
  startable (Exec ["mpc"; "enable"; Py.str_of_int n]) = true /\
  startable (Exec ["mpc"; "enable"; "only"; Py.str_of_int n]) = true.
Proof.
  unfold startable. cbn [call_args existsb]. rewrite str_of_int_no_nul.
  split; reflexivity.
Qed.

Lemma bt_switch_to_spec output_id pins states env k o evs :
  bt_switch_to output_id pins states env k = (o, evs) ->
  exists r1 r2 status play leds k',
    evs = switch_events output_id r1 r2 ++ recovery_events status play ++ leds
    /\ bt_leds pins states env k' = (o, leds).
Proof.
  destruct (enable_startable output_id) as [E1 E2].
  unfold bt_switch_to. exec. rewrite E1. exec. rewrite E2. exec.
  rewrite bt_check_mpc_err_eq.
  match goal with |- context [bt_leds pins states env ?k'] =>
    destruct (bt_leds_outcome pins states env k') as [(l & E)|(x & l & E)];
    rewrite E
  end; intros H; pair_inv H;
    do 6 eexists; (split; [|eassumption]); reflexivity.
Qed.

(** ** The blink loop *)

Ltac forall_tool :=
  repeat first
    [ assumption | apply Forall_nil | apply Forall_app; split
    | apply Forall_cons; [reflexivity|] ].

Lemma blink_loop pins cycles : forall env k o evs,
  for_each cycles (blink_body pins) env k = (o, evs) ->
  o <> Returned /\ Forall (tool_event true "gpioset") evs /\
  (o = Normal tt ->
   steps evs = flat_map (fun _ => blink_steps pins) cycles).
Proof.
  induction cycles as [|c cycles IH]; intros env k o evs.
  - simpl. intros H; pair_inv H.
    split; [discriminate|split; [constructor|reflexivity]].
  - cbn [for_each flat_map]. unfold bind at 1, blink_body at 1. exec.
    pose proof (bt_leds_events pins [true; false] env k) as F1.
    destruct (bt_leds_outcome pins [true; false] env k)
      as [(l1 & E1)|(x & l1 & E1)]; rewrite E1 in *; simpl in F1;
      apply only_tool_pauses in F1;
      [|intros H; pair_inv H; split; [discriminate|split; [auto|discriminate]]].
    exec.
    match goal with |- context [bt_leds pins [false; false] env ?k'] =>
      pose proof (bt_leds_events pins [false; false] env k') as F2;
      destruct (bt_leds_outcome pins [false; false] env k')
        as [(l2 & E2)|(x & l2 & E2)]; rewrite E2 in *; simpl in F2;
        apply only_tool_pauses in F2
    end.
    + exec. destruct (for_each cycles _ env _) as [o' e'] eqn:E3.
      apply IH in E3. destruct E3 as (R3 & F3 & N3).
      intros H; pair_inv H. split; [auto|]. split.
      * forall_tool.
      * intros ->. apply bt_leds_normal in E1, E2.
        destruct E1 as [_ S1], E2 as [_ S2]. unfold blink_steps.
        rewrite !steps_app. cbn [steps]. rewrite !steps_app. cbn [steps].
        rewrite S1, S2, N3 by reflexivity.
        cbn [app]. rewrite <- ?app_assoc. reflexivity.
    + exec. intros H; pair_inv H. split; [discriminate|]. split.
      * forall_tool.
      * discriminate.
Qed.

(** ** The whole invocation *)

Lemma bt_switch_unfold cmd led_pins :
  bt_switch cmd led_pins =
  func (
    when (negb (cmd =? "toggle")%string && negb (cmd =? "speakers")%string
          && negb (cmd =? "headphones")%string && negb (cmd =? "toggle2")%string
          && negb (cmd =? "headphones2")%string) (
      logger_error "Invalid command. Doing nothing." ;;
      return_) ;;
    led_pins <- comprehension bt_find_led_pin led_pins ;;
    isOutputsOn_console <- subprocess_run (Shell "mpc outputs") ;;
    logger_debug (LBytes (stdout isOutputsOn_console)) ;;
    (if ((cmd =? "toggle")%string
         && negb (Re.search (Re.output_enabled "2")
                            (stdout isOutputsOn_console)))
        || (cmd =? "headphones")%string
     then
       isBtConnected_console <- subprocess_run (Shell "bluetoothctl info") ;;
       logger_debug (LBytes (stdout isBtConnected_console)) ;;
       if Re.search Re.bt_connected (stdout isBtConnected_console) then
         bt_switch_to 2 led_pins [true; false] ;;
         return_
       else
         print ("No bluetooth device connected. Defaulting to " ++ dquote
                ++ "Output 1" ++ dquote ++ ".")%string ;;
         bt_connect_all ;;
         for_each (seq 0 3) (blink_body led_pins)
     else if ((cmd =? "toggle2")%string
              && negb (Re.search (Re.output_enabled "3")
                                 (stdout isOutputsOn_console)))
             || (cmd =? "headphones2")%string
     then
       bt_switch_to 3 led_pins [false; true] ;;
       return_
     else ret tt) ;;
    bt_switch_to 1 led_pins [false; false]).
Proof. reflexivity. Qed.

Lemma valid_command_cases cmd :
  valid_command cmd = true ->
  cmd = "toggle" \/ cmd = "speakers" \/ cmd = "headphones"
  \/ cmd = "toggle2" \/ cmd = "headphones2".
Proof.
  unfold valid_command. rewrite !orb_true_iff, !String.eqb_eq. tauto.
Qed.

Ltac top1_in H :=
  cbv beta iota zeta delta [bind emit func ret when
    subprocess_run start sleep print logger_debug logger_error
    raise return_ run] in H;
  cbn [app fst snd ncalls Nat.add String.eqb Ascii.eqb Bool.eqb
       negb andb orb] in H;
  settle_args_in H.
Ltac top_in H := repeat (progress top1_in H).

Lemma path_then_events p rest : path_then p rest = path_events p ++ rest.
Proof.
  destruct p; cbn [path_then path_events app]; try reflexivity.
  now rewrite <- app_assoc.
Qed.

Lemma shape_intro cmd led_pins t names finds leds outputs r1 r2 status play p :
  t = finds
      ++ EvRun (Shell "mpc outputs") outputs
      :: EvLog DEBUG (LBytes (stdout outputs))
      :: path_then p (switch_events (path_target p) r1 r2
                      ++ recovery_events status play
                      ++ leds) ->
  led_pins = map Some names ->
  Forall (only_tool "gpiofind") finds ->
  steps finds = find_steps names ->
  path_taken cmd outputs (resolved finds) p ->
  (exists env k,
     bt_leds (resolved finds) (led_pattern (path_target p)) env k
     = (Normal tt, leds)) ->
  shape cmd led_pins t.
Proof.
  intros -> Hp Hf Hs Ht (env & k & El). rewrite path_then_events.
  pose proof (bt_leds_events (resolved finds) (led_pattern (path_target p))
                env k) as Fl.
  rewrite El in Fl. apply bt_leds_normal in El. destruct El.
  now apply Shape with (names := names).
Qed.

Lemma bt_leds_not_returned pins states env k evs :
  bt_leds pins states env k <> (Returned, evs).
Proof.
  destruct (bt_leds_outcome pins states env k) as [(l & E)|(x & l & E)];
    rewrite E; discriminate.
Qed.

Tactic Notation "name_answer" hyp(H) constr(c) ident(r) :=
  match type of H with
  | context [?e ?k c] => set (r := e k c) in H; clearbody r
  end.

Ltac split_search H :=
  match type of H with
  | context [if ?b then _ else _] =>
      match b with
      | context [Re.search ?re ?s] => destruct (Re.search re s) eqn:?
      end
  end; top_in H.

Ltac do_switch H :=
  match type of H with
  | context [bt_switch_to ?n ?a ?st ?e ?k] =>
      let o := fresh "o" in
      let sw := fresh "sw" in
      let E := fresh "Esw" in
      destruct (bt_switch_to n a st e k) as [o sw] eqn:E;
      apply bt_switch_to_spec in E;
      destruct E as (r1 & r2 & status & play & leds & k' & -> & E);
      destruct o as [[]| |?];
      [ | exfalso; exact (bt_leds_not_returned _ _ _ _ E) | discriminate ]
  end.

Ltac do_connect H :=
  match type of H with
  | context [bt_connect_all ?e ?k] =>
      let o := fresh "o" in
      let c := fresh "c" in
      let E := fresh "Ec" in
      destruct (bt_connect_all e k) as [o c] eqn:E;
      apply bt_connect_all_spec in E;
      destruct E as (Rc & devices & connects & -> & Fc & Nc);
      destruct o as [[]| |?]; [ | congruence | discriminate ];
      specialize (Nc eq_refl); clear Rc
  end.

Ltac do_blink H :=
  match type of H with
  | context [for_each (seq 0 3) (blink_body ?a) ?e ?k] =>
      let o := fresh "o" in
      let b := fresh "blinks" in
      let E := fresh "Eb" in
      destruct (for_each (seq 0 3) (blink_body a) e k) as [o b] eqn:E;
      apply blink_loop in E;
      destruct E as (Rb & Fb & Nb);
      destruct o as [[]| |?]; [ | congruence | discriminate ];
      specialize (Nb eq_refl); clear Rb;
      cbn [flat_map seq] in Nb; rewrite app_nil_r in Nb
  end.

Ltac finish way H :=
  pair_inv H;
  rewrite <- ?app_assoc; cbn [app]; rewrite ?app_nil_r;
  eapply shape_intro with (p := way);
  [ cbn [path_then path_target]; reflexivity
  | reflexivity | eassumption | eassumption
  | cbn [path_taken]; repeat split; auto 8
  | cbn [path_target led_pattern Z.eqb Pos.eqb]; eauto ].

Ltac start H Ef :=
  rewrite bt_switch_unfold in H; top_in H;
  match type of H with
  | context [comprehension bt_find_led_pin ?pins ?env ?k] =>
      destruct (comprehension bt_find_led_pin pins env k) as [o1 finds] eqn:Ef;
      apply find_pins_spec in Ef;
      let Ff := fresh "Ff" in
      let Rf := fresh "Rf" in
      let Nf := fresh "Nf" in
      destruct Ef as (Ff & Rf & Nf);
      destruct o1 as [ds| |x]; [|congruence|discriminate];
      destruct (Nf ds eq_refl) as (-> & names & -> & Sf); clear Nf Rf
  end;
  top_in H;
  name_answer H (Shell "mpc outputs") outputs.

Lemma bt_switch_shape env cmd led_pins t :
  valid_command cmd = true ->
  run (bt_switch cmd led_pins) env = (Normal tt, t) ->
  shape cmd led_pins t.
Proof.
  intros Hv H. apply valid_command_cases in Hv.
  destruct Hv as [->|[->|[->|[->| ->]]]]; start H Ef.
  - (* toggle *)
    split_search H.
    + do_switch H. top_in H. finish ToSpeakers H.
    + name_answer H (Shell "bluetoothctl info") info. split_search H.
      * do_switch H. top_in H. finish (ToBluetooth info) H.
      * do_connect H. top_in H. do_blink H. top_in H. do_switch H. top_in H.
        finish (Fallback info devices connects blinks) H.
  - (* speakers *)
    do_switch H. top_in H. finish ToSpeakers H.
  - (* headphones *)
    name_answer H (Shell "bluetoothctl info") info. split_search H.
    + do_switch H. top_in H. finish (ToBluetooth info) H.
    + do_connect H. top_in H. do_blink H. top_in H. do_switch H. top_in H.
      finish (Fallback info devices connects blinks) H.
  - (* toggle2 *)
    split_search H.
    + do_switch H. top_in H. finish ToSpeakers H.
    + do_switch H. top_in H. finish ToSecondary H.
  - (* headphones2 *)
    do_switch H. top_in H. finish ToSecondary H.
Qed.

(** ** What the trace of a whole invocation shows *)

Lemma recovery_enable_calls status play :
  enable_calls (recovery_events status play) = [].
Proof. unfold recovery_events. now destruct (Re.search _ _). Qed.

Lemma recovery_after_switch status play :
  after_switch (recovery_events status play) = None.
Proof. unfold recovery_events. now destruct (Re.search _ _). Qed.

Lemma recovery_led_sets status play :
  led_sets (recovery_events status play) = [].
Proof. unfold recovery_events. now destruct (Re.search _ _). Qed.

Lemma recovery_resolved status play :
  resolved (recovery_events status play) = [].
Proof. unfold recovery_events. now destruct (Re.search _ _). Qed.

Lemma recovery_bluetooth_calls status play :
  bluetooth_calls (recovery_events status play) = [].
Proof. unfold recovery_events. now destruct (Re.search _ _). Qed.

Lemma recovery_mpc_calls status play :
  mpc_calls (recovery_events status play) =
  Shell "mpc status"
  :: (if Re.search Re.mpc_error (stdout status)
      then [Shell "mpc play"] else []).
Proof. unfold recovery_events. now destruct (Re.search _ _). Qed.

Lemma recovery_steps status play :
  steps (recovery_events status play) =
  Call (Shell "mpc status")
  :: (if Re.search Re.mpc_error (stdout status)
      then [Call (Shell "mpc play")] else []).
Proof. unfold recovery_events. now destruct (Re.search _ _). Qed.

Lemma recovery_status status play :
  responses (Shell "mpc status") (recovery_events status play) = [status].
Proof. unfold recovery_events. now destruct (Re.search _ _). Qed.

Lemma recovery_play status play :
  responses (Shell "mpc play") (recovery_events status play) =
  if Re.search Re.mpc_error (stdout status) then [play] else [].
Proof. unfold recovery_events. now destruct (Re.search _ _). Qed.

Lemma recovery_other s status play :
  s <> "mpc status" -> s <> "mpc play" ->
  responses (Shell s) (recovery_events status play) = [].
Proof.
  intros H1 H2. unfold recovery_events.
  destruct (Re.search _ _); cbn [app responses call_eqb];
    destruct (String.eqb_spec s "mpc status"); try congruence;
    destruct (String.eqb_spec s "mpc play"); congruence.
Qed.

Section Shaped.

Variable cmd : Py.str.
Variables finds leds : list event.
Variables outputs r1 r2 status play : CompletedProcess.
Variable p : path.

Hypothesis Hfinds : Forall (only_tool "gpiofind") finds.
Hypothesis Hleds : Forall (only_tool "gpioset") leds.
Hypothesis Htaken : path_taken cmd outputs (resolved finds) p.

Let target := Py.str_of_int (path_target p).

Let t :=
  finds
  ++ [EvRun (Shell "mpc outputs") outputs;
      EvLog DEBUG (LBytes (stdout outputs))]
  ++ path_events p
  ++ switch_events (path_target p) r1 r2
  ++ recovery_events status play
  ++ leds.

Ltac names_differ := discriminate.

Lemma path_enable_calls : enable_calls (path_events p) = [].
Proof.
  destruct p as [info|info devices connects blinks| |]; try reflexivity.
  destruct Htaken as (_ & _ & Fc & _ & Fb & _).
  cbn [path_events app enable_calls enable_of].
  rewrite enable_calls_app, (enable_calls_only Fc), (enable_calls_only Fb);
    [reflexivity|names_differ|names_differ].
Qed.

Lemma path_after_switch : after_switch (path_events p) = None.
Proof.
  destruct p as [info|info devices connects blinks| |]; try reflexivity.
  destruct Htaken as (_ & _ & Fc & _ & Fb & _).
  cbn [path_events app after_switch is_exclusive enable_of].
  rewrite after_switch_app, (after_switch_only Fc), (after_switch_only Fb);
    [reflexivity|names_differ|names_differ].
Qed.

Lemma path_mpc_calls : mpc_calls (path_events p) = [].
Proof.
  destruct p as [info|info devices connects blinks| |]; try reflexivity.
  destruct Htaken as (_ & _ & Fc & _ & Fb & _).
  cbn [path_events app mpc_calls is_mpc String.prefix Ascii.eqb Bool.eqb].
  rewrite mpc_calls_app, (mpc_calls_only Fc), (mpc_calls_only Fb);
    [reflexivity|names_differ|names_differ].
Qed.

Lemma path_resolved : resolved (path_events p) = [].
Proof.
  destruct p as [info|info devices connects blinks| |]; try reflexivity.
  destruct Htaken as (_ & _ & Fc & _ & Fb & _).
  cbn [path_events app resolved].
  rewrite resolved_app, (resolved_only Fc), (resolved_only Fb);
    [reflexivity|names_differ|names_differ].
Qed.

Lemma path_responses s :
  s <> "bluetoothctl info" -> s <> "bluetoothctl devices" ->
  responses (Shell s) (path_events p) = [].
Proof.
  intros H1 H2.
  destruct p as [info|info devices connects blinks| |]; try reflexivity;
    cbn [path_events app responses call_eqb];
    destruct (String.eqb_spec s "bluetoothctl info"); try congruence.
  destruct Htaken as (_ & _ & Fc & _ & Fb & _).
  destruct (String.eqb_spec s "bluetoothctl devices"); try congruence.
  now rewrite responses_app, (responses_shell_only _ Fc),
    (responses_shell_only _ Fb).
Qed.

(** The switch: one additive and one exclusive enable of the target. *)
Lemma shaped_enable_calls :
  enable_calls t = [Additive target; Exclusive target].
Proof.
  unfold t. rewrite !enable_calls_app.
  rewrite (enable_calls_only Hfinds), (enable_calls_only Hleds),
    path_enable_calls, recovery_enable_calls by names_differ.
  reflexivity.
Qed.

(** The one answer about the outputs. *)
Lemma shaped_outputs : responses (Shell "mpc outputs") t = [outputs].
Proof.
  unfold t. rewrite !responses_app.
  rewrite (responses_shell_only _ Hfinds), (responses_shell_only _ Hleds),
    path_responses, recovery_other by names_differ.
  reflexivity.
Qed.

Lemma shaped_output2 :
  output2_enabled t = Re.search (Re.output_enabled "2") (stdout outputs).
Proof.
  unfold output2_enabled, some_response. rewrite shaped_outputs.
  apply orb_false_r.
Qed.

Lemma shaped_output3 :
  output3_enabled t = Re.search (Re.output_enabled "3") (stdout outputs).
Proof.
  unfold output3_enabled, some_response. rewrite shaped_outputs.
  apply orb_false_r.
Qed.

Lemma shaped_info :
  responses (Shell "bluetoothctl info") t =
  match p with
  | ToBluetooth info => [info]
  | Fallback info _ _ _ => [info]
  | _ => []
  end.
Proof.
  unfold t. rewrite !responses_app.
  rewrite (responses_shell_only _ Hfinds), (responses_shell_only _ Hleds),
    recovery_other by names_differ.
  cbn [app responses call_eqb String.eqb Ascii.eqb Bool.eqb switch_events].
  rewrite app_nil_r.
  destruct p as [info|info devices connects blinks| |]; try reflexivity.
  destruct Htaken as (_ & _ & Fc & _ & Fb & _).
  cbn [path_events app responses call_eqb String.eqb Ascii.eqb Bool.eqb].
  now rewrite responses_app, (responses_shell_only _ Fc),
    (responses_shell_only _ Fb).
Qed.

Lemma shaped_connected :
  bluetooth_connected t =
  match p with
  | ToBluetooth _ => true
  | _ => false
  end.
Proof.
  unfold bluetooth_connected, some_response. rewrite shaped_info.
  destruct p as [info|info devices connects blinks| |]; try reflexivity;
    cbn [existsb]; rewrite orb_false_r.
  - now destruct Htaken as (_ & ->).
  - now destruct Htaken as (_ & -> & _).
Qed.

Lemma shaped_status : responses (Shell "mpc status") t = [status].
Proof.
  unfold t. rewrite !responses_app.
  rewrite (responses_shell_only _ Hfinds), (responses_shell_only _ Hleds),
    path_responses, recovery_status by names_differ.
  reflexivity.
Qed.

Lemma shaped_failed :
  stream_failed t = Re.search Re.mpc_error (stdout status).
Proof.
  unfold stream_failed, some_response. rewrite shaped_status.
  apply orb_false_r.
Qed.

Lemma shaped_resolved : resolved t = resolved finds.
Proof.
  unfold t. rewrite !resolved_app.
  rewrite (resolved_only Hleds), path_resolved, recovery_resolved
    by names_differ.
  cbn [resolved switch_events app]. apply app_nil_r.
Qed.

(** After the switch there are only the recovery and the final LED
    levels. *)
Lemma shaped_final_leds : final_leds t = led_sets leds.
Proof.
  unfold final_leds, t. rewrite !after_switch_app.
  rewrite (after_switch_only Hleds), recovery_after_switch by names_differ.
  cbn [option_map after_switch switch_events is_exclusive enable_of
       String.eqb Ascii.eqb Bool.eqb andb app].
  cbn [led_sets]. rewrite led_sets_app, recovery_led_sets. reflexivity.
Qed.

Lemma shaped_bluetooth_calls :
  bluetooth_calls t = bluetooth_calls (path_events p).
Proof.
  unfold t. rewrite !bluetooth_calls_app.
  rewrite (bluetooth_calls_only Hfinds), (bluetooth_calls_only Hleds),
    recovery_bluetooth_calls by names_differ.
  cbn [bluetooth_calls switch_events app is_bluetoothctl String.prefix
       String.eqb Ascii.eqb Bool.eqb].
  apply app_nil_r.
Qed.

(** The calls of the player's client: the query, the two enable
    commands, the status and, after a stream error, the resume. *)
Lemma shaped_mpc_calls :
  mpc_calls t =
  [Shell "mpc outputs";
   Exec ["mpc"; "enable"; target];
   Exec ["mpc"; "enable"; "only"; target];
   Shell "mpc status"]
  ++ (if Re.search Re.mpc_error (stdout status)
      then [Shell "mpc play"] else []).
Proof.
  unfold t. rewrite !mpc_calls_app.
  rewrite (mpc_calls_only Hfinds), (mpc_calls_only Hleds),
    path_mpc_calls, recovery_mpc_calls by names_differ.
  rewrite app_nil_r. reflexivity.
Qed.

Lemma shaped_steps :
  steps t =
  steps finds
  ++ [Call (Shell "mpc outputs")]
  ++ steps (path_events p)
  ++ [Call (Exec ["mpc"; "enable"; target]);
      Pause (1 # 10);
      Call (Exec ["mpc"; "enable"; "only"; target]);
      Call (Shell "mpc status")]
  ++ (if stream_failed t then [Call (Shell "mpc play")] else [])
  ++ steps leds.
Proof.
  rewrite shaped_failed. unfold t.
  rewrite !steps_app, recovery_steps. reflexivity.
Qed.

End Shaped.

Lemma shaped_devices cmd finds leds outputs r1 r2 status play info devices
  connects blinks :
  Forall (only_tool "gpiofind") finds ->
  Forall (only_tool "gpioset") leds ->
  path_taken cmd outputs (resolved finds)
    (Fallback info devices connects blinks) ->
  listed_devices
    (finds
     ++ [EvRun (Shell "mpc outputs") outputs;
         EvLog DEBUG (LBytes (stdout outputs))]
     ++ path_events (Fallback info devices connects blinks)
     ++ switch_events 1 r1 r2
     ++ recovery_events status play
     ++ leds)
  = devices_in (stdout devices).
Proof.
  intros Hfinds Hleds (_ & _ & Fc & _ & Fb & _).
  unfold listed_devices. rewrite !responses_app.
  rewrite (responses_shell_only _ Hfinds), (responses_shell_only _ Hleds),
    recovery_other by discriminate.
  cbn [path_events app responses call_eqb String.eqb Ascii.eqb Bool.eqb
       switch_events].
  rewrite responses_app, (responses_shell_only _ Fc),
    (responses_shell_only _ Fb).
  cbn [app flat_map]. apply app_nil_r.
Qed.

Lemma led_calls_in pins states args :
  In args (led_calls pins states) ->
  exists chip line rest (on : bool),
    In (Some (chip :: line :: rest)) pins /\
    args = [chip; (line ++ "=" ++ (if on then "1" else "0"))%string].
Proof.
  unfold led_calls. intros H. apply in_flat_map in H.
  destruct H as ([pin on] & Hin & Hargs).
  apply in_combine_l in Hin. cbn [fst snd] in Hargs.
  destruct pin as [[|chip [|line rest]]|]; try contradiction.
  destruct Hargs as [<-|[]]. now exists chip, line, rest, on.
Qed.

Lemma target_cases p :
  (path_target p = 1 \/ path_target p = 2 \/ path_target p = 3)%Z.
Proof. destruct p; cbn; auto. Qed.

Ltac use_shape H :=
  apply bt_switch_shape in H; [|assumption || reflexivity];
  destruct H as [names finds leds outputs r1 r2 status play p
                   Hpins Hfinds Sfinds Htaken Hleds Lleds Sleds].

Ltac split_taken :=
  cbn [path_taken] in *;
  repeat match goal with
         | H : _ /\ _ |- _ => destruct H
         | H : _ \/ _ |- _ => destruct H
         end;
  subst; try discriminate.

(** ** The claims *)

(** C1. For a recognised command, an invocation that runs to its end
    switches to exactly one of the outputs 1, 2 and 3, and that output is
    the one the decision table gives for the command, the state of the
    outputs 2 and 3 the player reported and the Bluetooth connectivity
    that was read. *)
Theorem decision_follows_table env cmd led_pins t :
  valid_command cmd = true ->
  run (bt_switch cmd led_pins) env = (Normal tt, t) ->
  exists target,
    (target = 1 \/ target = 2 \/ target = 3)%Z /\
    enable_calls t =
      [Additive (Py.str_of_int target); Exclusive (Py.str_of_int target)] /\
    forall n,
      decision_table cmd (output2_enabled t) (output3_enabled t)
        (bluetooth_connected t) = Some n ->
      n = target.
Proof.
  intros Hv H. use_shape H.
  exists (path_target p). split; [apply target_cases|].
  split; [eapply shaped_enable_calls; eassumption|].
  erewrite shaped_output2, shaped_output3 by eassumption.
  erewrite shaped_connected by eassumption.
  intros n. unfold decision_table.
  destruct p; split_taken; cbn [String.eqb Ascii.eqb Bool.eqb path_target];
    repeat match goal with
           | H : Re.search _ _ = _ |- _ => rewrite H
           end;
    cbn [negb]; try (intros [= <-]; reflexivity).
  all: destruct (Re.search _ _); intros [= <-]; reflexivity.
Qed.

Lemma decision_follows_table_witness :
  valid_command "toggle" = true /\
  exists target,
    (target = 1 \/ target = 2 \/ target = 3)%Z /\
    enable_calls (snd (run (bt_switch "toggle" sample_pins) tools_connected)) =
      [Additive (Py.str_of_int target); Exclusive (Py.str_of_int target)] /\
    forall n,
      decision_table "toggle"
        (output2_enabled
           (snd (run (bt_switch "toggle" sample_pins) tools_connected)))
        (output3_enabled
           (snd (run (bt_switch "toggle" sample_pins) tools_connected)))
        (bluetooth_connected
           (snd (run (bt_switch "toggle" sample_pins) tools_connected)))
      = Some n ->
      n = target.
Proof.
  split; [reflexivity|].
  apply (@decision_follows_table tools_connected "toggle" sample_pins _);
    [reflexivity|vm_compute; reflexivity].
Defined.

(** C2. The code does not do what the claim says: with the pin names that
    a missing configuration gives, [None] and [None], the resolution hands
    [None] to [gpiofind]; the call is refused with [TypeError] and the
    invocation ends there, before the outputs are queried and without a
    switch. *)
Theorem missing_led_pin_raises env :
  run (bt_switch "toggle" [None; None]) env = (Raised TypeError, []).
Proof. reflexivity. Qed.

(** A second way for the LED handling to end an invocation: a pin that
    [gpiofind] resolves to a descriptor without a line offset makes the
    level-set call after the switch raise [IndexError]. *)
Example descriptor_without_offset_raises :
  fst (run (bt_switch "speakers" sample_pins) tools_no_offset)
  = Raised IndexError /\
  enable_calls (snd (run (bt_switch "speakers" sample_pins) tools_no_offset))
  = [Additive "1"; Exclusive "1"] /\
  led_sets (snd (run (bt_switch "speakers" sample_pins) tools_no_offset)) = [].
Proof. vm_compute. repeat split. Qed.

(** Where the resolution itself fails, in contrast, the slot is skipped
    and the invocation runs to its end. *)
Example failed_resolution_is_skipped :
  fst (run (bt_switch "speakers" [Some "GPIO99"; Some "GPIO17"])
         tools_connected) = Normal tt /\
  resolved (snd (run (bt_switch "speakers" [Some "GPIO99"; Some "GPIO17"])
                   tools_connected))
  = [None; Some ["gpiochip0"; "17"]] /\
  led_sets (snd (run (bt_switch "speakers" [Some "GPIO99"; Some "GPIO17"])
                   tools_connected))
  = [["gpiochip0"; "17=0"]].
Proof. vm_compute. repeat split. Qed.

(** A pin name with a NUL character cannot be handed to [gpiofind]: the
    call is refused with [ValueError] before a process is started. *)
Example pin_name_with_nul_raises env :
  run (bt_switch "speakers" [Some (String (ascii_of_nat 0) "GPIO27")]) env
  = (Raised ValueError, []).
Proof. reflexivity. Qed.

(** C3. The switcher issues the additive enable of the output, then
    pauses for a time that is not zero, then issues the exclusive enable
    of the same output; there is no other enable command and no other
    pause. *)
Theorem switch_order env k output_id led_pins led_states :
  exists delay,
    filter is_enable_or_pause
      (steps (snd (bt_switch_to output_id led_pins led_states env k))) =
    [Call (Exec ["mpc"; "enable"; Py.str_of_int output_id]);
     Pause delay;
     Call (Exec ["mpc"; "enable"; "only"; Py.str_of_int output_id])]
    /\ (0 < delay)%Q.
Proof.
  exists (1 # 10). split; [|reflexivity].
  destruct (bt_switch_to output_id led_pins led_states env k) as [o evs] eqn:E.
  apply bt_switch_to_spec in E.
  destruct E as (r1 & r2 & status & play & leds & k' & -> & E).
  pose proof (bt_leds_events led_pins led_states env k') as Hleds.
  rewrite E in Hleds. cbn [snd] in *.
  rewrite !steps_app, !filter_app, recovery_steps.
  rewrite (enable_or_pause_only Hleds) by discriminate.
  destruct (Re.search _ _); reflexivity.
Qed.

(** C4. The switcher queries the status of the player once, and it does
    so after the switch: the steps of a switch are the additive enable,
    the pause, the exclusive enable, then the query of the status, then
    one resume command when the status shows the stream error and none
    otherwise, and after that only calls that set LED levels.  So the
    resume command is issued once whatever it answers, nothing is
    retried, and the check itself never raises. *)
Theorem recovery_once env k output_id led_pins led_states :
  exists status leds,
    responses (Shell "mpc status")
      (snd (bt_switch_to output_id led_pins led_states env k)) = [status] /\
    length (responses (Shell "mpc play")
              (snd (bt_switch_to output_id led_pins led_states env k))) =
      (if Re.search Re.mpc_error (stdout status) then 1 else 0)%nat /\
    steps (snd (bt_switch_to output_id led_pins led_states env k)) =
      [Call (Exec ["mpc"; "enable"; Py.str_of_int output_id]);
       Pause (1 # 10);
       Call (Exec ["mpc"; "enable"; "only"; Py.str_of_int output_id]);
       Call (Shell "mpc status")]
      ++ (if Re.search Re.mpc_error (stdout status)
          then [Call (Shell "mpc play")] else [])
      ++ leds /\
    forallb is_level_set leds = true /\
    fst (bt_check_mpc_err env k) = Normal tt.
Proof.
  destruct (bt_switch_to output_id led_pins led_states env k) as [o evs] eqn:E.
  apply bt_switch_to_spec in E.
  destruct E as (r1 & r2 & status & play & leds & k' & -> & E).
  pose proof (bt_leds_events led_pins led_states env k') as Hleds.
  rewrite E in Hleds. cbn [snd] in *.
  exists status, (steps leds). rewrite !responses_app.
  rewrite !(responses_shell_only _ Hleds), recovery_status, recovery_play.
  rewrite bt_check_mpc_err_eq.
  rewrite !steps_app, recovery_steps, (level_set_only Hleds).
  repeat split. now destruct (Re.search _ _).
Qed.

(** C5. After the switch of an invocation that runs to its end, the
    level-set calls are those of the LED mapping for the selected output,
    over the descriptors the pins were resolved to: (off, off) for output
    1, (on, off) for output 2, (off, on) for output 3.  Every such call
    is for a slot with a descriptor, and the actuator does nothing for a
    slot without one. *)
Theorem final_led_levels env cmd led_pins t :
  valid_command cmd = true ->
  run (bt_switch cmd led_pins) env = (Normal tt, t) ->
  exists target,
    (target = 1 \/ target = 2 \/ target = 3)%Z /\
    enable_calls t =
      [Additive (Py.str_of_int target); Exclusive (Py.str_of_int target)] /\
    final_leds t = led_calls (resolved t) (led_pattern target) /\
    led_pattern 1 = [false; false] /\
    led_pattern 2 = [true; false] /\
    led_pattern 3 = [false; true] /\
    (forall args, In args (final_leds t) ->
       exists chip line rest (on : bool),
         In (Some (chip :: line :: rest)) (resolved t) /\
         args = [chip; (line ++ "=" ++ (if on then "1" else "0"))%string]) /\
    (forall on env' k', bt_led None on env' k' = (Normal tt, [])).
Proof.
  intros Hv H. use_shape H.
  exists (path_target p). split; [apply target_cases|].
  split; [eapply shaped_enable_calls; eassumption|].
  assert (Hfinal :
    final_leds
      (finds
       ++ [EvRun (Shell "mpc outputs") outputs;
           EvLog DEBUG (LBytes (stdout outputs))]
       ++ path_events p
       ++ switch_events (path_target p) r1 r2
       ++ recovery_events status play
       ++ leds)
    = led_calls
        (resolved
           (finds
            ++ [EvRun (Shell "mpc outputs") outputs;
                EvLog DEBUG (LBytes (stdout outputs))]
            ++ path_events p
            ++ switch_events (path_target p) r1 r2
            ++ recovery_events status play
            ++ leds))
        (led_pattern (path_target p))).
  { erewrite shaped_final_leds by eassumption.
    erewrite shaped_resolved by eassumption. exact Lleds. }
  split; [exact Hfinal|]. repeat (split; [reflexivity|]).
  split; [|reflexivity].
  intros args Hin. rewrite Hfinal in Hin. now apply led_calls_in in Hin.
Qed.

Lemma final_led_levels_witness :
  valid_command "headphones" = true /\
  exists target,
    (target = 1 \/ target = 2 \/ target = 3)%Z /\
    enable_calls
      (snd (run (bt_switch "headphones" sample_pins) tools_connected)) =
      [Additive (Py.str_of_int target); Exclusive (Py.str_of_int target)] /\
    final_leds
      (snd (run (bt_switch "headphones" sample_pins) tools_connected)) =
      led_calls
        (resolved
           (snd (run (bt_switch "headphones" sample_pins) tools_connected)))
        (led_pattern target) /\
    led_pattern 1 = [false; false] /\
    led_pattern 2 = [true; false] /\
    led_pattern 3 = [false; true] /\
    (forall args,
       In args
         (final_leds
            (snd (run (bt_switch "headphones" sample_pins) tools_connected)))
       ->
       exists chip line rest (on : bool),
         In (Some (chip :: line :: rest))
           (resolved
              (snd (run (bt_switch "headphones" sample_pins) tools_connected)))
         /\
         args = [chip; (line ++ "=" ++ (if on then "1" else "0"))%string]) /\
    (forall on env' k', bt_led None on env' k' = (Normal tt, [])).
Proof.
  split; [reflexivity|].
  apply (@final_led_levels tools_connected "headphones" sample_pins _);
    [reflexivity|vm_compute; reflexivity].
Defined.

(** C6. For a command that is not one of the five, the invocation logs
    one error and returns: the error record is the whole trace, so no
    tool is called at all. *)
Theorem invalid_command_does_nothing env cmd led_pins :
  valid_command cmd = false ->
  run (bt_switch cmd led_pins) env =
  (Normal tt, [EvLog ERROR (LStr "Invalid command. Doing nothing.")]).
Proof.
  unfold valid_command. intros H.
  repeat (apply orb_false_elim in H; destruct H as [H ?]).
  rewrite bt_switch_unfold. unfold run, func, bind at 1, when.
  repeat match goal with
         | E : (cmd =? _)%string = false |- _ => rewrite E; clear E
         end.
  reflexivity.
Qed.

Lemma invalid_command_does_nothing_witness :
  valid_command "foo" = false /\
  run (bt_switch "foo" sample_pins) tools_connected =
  (Normal tt, [EvLog ERROR (LStr "Invalid command. Doing nothing.")]).
Proof.
  split; [reflexivity|].
  apply (@invalid_command_does_nothing tools_connected "foo" sample_pins).
  reflexivity.
Defined.

(** C7. For [toggle] with output 2 not enabled and no device connected,
    an invocation that runs to its end resolves the pins, queries the
    outputs and the connectivity, lists the known devices once and tries
    to connect each listed device in order, blinks three cycles of
    (primary on, secondary off), 0.25 s, (both off), 0.25 s, and then
    switches to output 1 and sets the LEDs to (off, off). *)
Theorem toggle_fallback env led_pins t :
  run (bt_switch "toggle" led_pins) env = (Normal tt, t) ->
  output2_enabled t = false ->
  bluetooth_connected t = false ->
  exists names,
    led_pins = map Some names /\
    steps t =
      find_steps names
      ++ [Call (Shell "mpc outputs");
          Call (Shell "bluetoothctl info");
          Call (Shell "bluetoothctl devices")]
      ++ connect_steps (listed_devices t)
      ++ (blink_steps (resolved t) ++ blink_steps (resolved t)
          ++ blink_steps (resolved t))
      ++ [Call (Exec ["mpc"; "enable"; "1"]);
          Pause (1 # 10);
          Call (Exec ["mpc"; "enable"; "only"; "1"]);
          Call (Shell "mpc status")]
      ++ (if stream_failed t then [Call (Shell "mpc play")] else [])
      ++ led_steps (resolved t) [false; false].
Proof.
  intros H. use_shape H. intros H2 Hbt.
  erewrite shaped_output2 in H2 by eassumption.
  erewrite shaped_connected in Hbt by eassumption.
  exists names. split; [assumption|].
  erewrite shaped_steps by eassumption.
  erewrite shaped_resolved by eassumption.
  destruct p as [info|info devices connects blinks| |];
    try discriminate; try (split_taken; congruence).
  erewrite shaped_devices by eassumption.
  destruct Htaken as (_ & _ & _ & Sc & _ & Sb).
  cbn [path_events app steps path_target]. rewrite !steps_app.
  rewrite Sfinds, Sc, Sb, Sleds. cbn [app path_target led_pattern].
  rewrite <- !app_assoc. reflexivity.
Qed.

Lemma toggle_fallback_witness :
  output2_enabled (snd (run (bt_switch "toggle" sample_pins) tools_absent))
  = false /\
  bluetooth_connected
    (snd (run (bt_switch "toggle" sample_pins) tools_absent)) = false /\
  exists names,
    sample_pins = map Some names /\
    steps (snd (run (bt_switch "toggle" sample_pins) tools_absent)) =
      find_steps names
      ++ [Call (Shell "mpc outputs");
          Call (Shell "bluetoothctl info");
          Call (Shell "bluetoothctl devices")]
      ++ connect_steps
           (listed_devices
              (snd (run (bt_switch "toggle" sample_pins) tools_absent)))
      ++ (blink_steps
            (resolved (snd (run (bt_switch "toggle" sample_pins) tools_absent)))
          ++ blink_steps
               (resolved
                  (snd (run (bt_switch "toggle" sample_pins) tools_absent)))
          ++ blink_steps
               (resolved
                  (snd (run (bt_switch "toggle" sample_pins) tools_absent))))
      ++ [Call (Exec ["mpc"; "enable"; "1"]);
          Pause (1 # 10);
          Call (Exec ["mpc"; "enable"; "only"; "1"]);
          Call (Shell "mpc status")]
      ++ (if stream_failed
               (snd (run (bt_switch "toggle" sample_pins) tools_absent))
          then [Call (Shell "mpc play")] else [])
      ++ led_steps
           (resolved (snd (run (bt_switch "toggle" sample_pins) tools_absent)))
           [false; false].
Proof.
  split; [vm_compute; reflexivity|]. split; [vm_compute; reflexivity|].
  apply (@toggle_fallback tools_absent sample_pins _);
    vm_compute; reflexivity.
Defined.

(** C8. For [headphones2], and for [toggle2] when output 3 is not
    enabled, an invocation that runs to its end switches to output 3,
    calls [bluetoothctl] not once, and sets the LEDs to (off, on). *)
Theorem secondary_output env cmd led_pins t :
  run (bt_switch cmd led_pins) env = (Normal tt, t) ->
  cmd = "headphones2" \/ (cmd = "toggle2" /\ output3_enabled t = false) ->
  enable_calls t = [Additive "3"; Exclusive "3"] /\
  bluetooth_calls t = [] /\
  final_leds t = led_calls (resolved t) [false; true].
Proof.
  intros H Hc.
  assert (Hv : valid_command cmd = true)
    by (destruct Hc as [->|[-> _]]; reflexivity).
  use_shape H.
  erewrite shaped_output3 in Hc by eassumption.
  erewrite shaped_enable_calls by eassumption.
  erewrite shaped_bluetooth_calls by eassumption.
  erewrite shaped_final_leds by eassumption.
  erewrite shaped_resolved by eassumption. rewrite Lleds.
  destruct p; split_taken; try congruence; repeat split; reflexivity.
Qed.

Lemma secondary_output_witness :
  ("headphones2" = "headphones2" \/
   ("headphones2" = "toggle2" /\
    output3_enabled
      (snd (run (bt_switch "headphones2" sample_pins) tools_connected))
    = false)) /\
  enable_calls
    (snd (run (bt_switch "headphones2" sample_pins) tools_connected))
  = [Additive "3"; Exclusive "3"] /\
  bluetooth_calls
    (snd (run (bt_switch "headphones2" sample_pins) tools_connected)) = [] /\
  final_leds
    (snd (run (bt_switch "headphones2" sample_pins) tools_connected))
  = led_calls
      (resolved
         (snd (run (bt_switch "headphones2" sample_pins) tools_connected)))
      [false; true].
Proof.
  split; [left; reflexivity|].
  apply (@secondary_output tools_connected "headphones2" sample_pins _);
    [vm_compute; reflexivity|left; reflexivity].
Defined.

(** C9. In an invocation that recognises its command and runs to its end,
    the selected output is output 1, 2 or 3, and all the calls of the
    player's client are, in this order: the query of the outputs, the
    additive enable of the selected output, its exclusive enable, the
    query of the status and, after a stream error, the resume command.
    So the commands that change the enabled outputs are the two enable
    commands, the exclusive one last, and whatever was enabled before,
    the player then has exactly the selected output enabled. *)
Theorem one_output_enabled env cmd led_pins t :
  valid_command cmd = true ->
  run (bt_switch cmd led_pins) env = (Normal tt, t) ->
  exists target,
    (target = "1" \/ target = "2" \/ target = "3") /\
    mpc_calls t =
      [Shell "mpc outputs";
       Exec ["mpc"; "enable"; target];
       Exec ["mpc"; "enable"; "only"; target];
       Shell "mpc status"]
      ++ (if stream_failed t then [Shell "mpc play"] else []) /\
    enable_calls t = [Additive target; Exclusive target] /\
    last (enable_calls t) (Additive target) = Exclusive target /\
    (forall enabled, player_after t enabled = [target]) /\
    (forall enabled, outputs_after (mpc_calls t) enabled = Some [target]).
Proof.
  intros Hv H. use_shape H.
  exists (Py.str_of_int (path_target p)). unfold player_after.
  erewrite shaped_failed by eassumption.
  erewrite shaped_mpc_calls by eassumption.
  erewrite shaped_enable_calls by eassumption.
  split; [destruct p; cbn [path_target]; auto|].
  repeat split.
  intros enabled. unfold outputs_after.
  destruct (Re.search Re.mpc_error (stdout status)); reflexivity.
Qed.

Lemma one_output_enabled_witness :
  valid_command "toggle" = true /\
  exists target,
    (target = "1" \/ target = "2" \/ target = "3") /\
    mpc_calls (snd (run (bt_switch "toggle" sample_pins) tools_absent)) =
      [Shell "mpc outputs";
       Exec ["mpc"; "enable"; target];
       Exec ["mpc"; "enable"; "only"; target];
       Shell "mpc status"]
      ++ (if stream_failed
               (snd (run (bt_switch "toggle" sample_pins) tools_absent))
          then [Shell "mpc play"] else []) /\
    enable_calls (snd (run (bt_switch "toggle" sample_pins) tools_absent))
    = [Additive target; Exclusive target] /\
    last (enable_calls
            (snd (run (bt_switch "toggle" sample_pins) tools_absent)))
         (Additive target) = Exclusive target /\
    (forall enabled,
       player_after (snd (run (bt_switch "toggle" sample_pins) tools_absent))
         enabled = [target]) /\
    (forall enabled,
       outputs_after
         (mpc_calls (snd (run (bt_switch "toggle" sample_pins) tools_absent)))
         enabled = Some [target]).
Proof.
  split; [reflexivity|].
  apply (@one_output_enabled tools_absent "toggle" sample_pins _);
    [reflexivity|vm_compute; reflexivity].
Defined.

(** C10. For [speakers], an invocation that runs to its end switches to
    output 1 and calls [bluetoothctl] not once, whatever the player and
    the other tools answer. *)
Theorem speakers_direct env led_pins t :
  run (bt_switch "speakers" led_pins) env = (Normal tt, t) ->
  enable_calls t = [Additive "1"; Exclusive "1"] /\
  bluetooth_calls t = [].
Proof.
  intros H. use_shape H.
  erewrite shaped_enable_calls by eassumption.
  erewrite shaped_bluetooth_calls by eassumption.
  destruct p; split_taken; split; reflexivity.
Qed.

Lemma speakers_direct_witness :
  enable_calls (snd (run (bt_switch "speakers" sample_pins) tools_connected))
  = [Additive "1"; Exclusive "1"] /\
  bluetooth_calls
    (snd (run (bt_switch "speakers" sample_pins) tools_connected)) = [].
Proof.
  apply (@speakers_direct tools_connected sample_pins _).
  vm_compute; reflexivity.
Defined.

(** * Further properties of the script *)

(** ** Effects that hold for every outcome *)

Section Always.

Variable P : event -> Prop.

Lemma always_ret A (a : A) : always P (ret a).
Proof. intros env k. constructor. Qed.

Lemma always_raise A x : always P (@raise A x).
Proof. intros env k. constructor. Qed.

Lemma always_return : always P return_.
Proof. intros env k. constructor. Qed.

Lemma always_emit e : P e -> always P (emit e).
Proof. intros H env k. repeat constructor. exact H. Qed.

Lemma always_bind A B (m : M A) (f : A -> M B) :
  always P m -> (forall a, always P (f a)) -> always P (bind m f).
Proof.
  intros Hm Hf env k. unfold bind. specialize (Hm env k).
  destruct (m env k) as [[a| |x] e1]; cbn [snd] in *; auto.
  specialize (Hf a env (ncalls e1 + k)%nat).
  destruct (f a env _) as [o e2]. cbn [snd] in *. now apply Forall_app.
Qed.

Lemma always_func body : always P body -> always P (func body).
Proof.
  intros H env k. unfold func. specialize (H env k).
  destruct (body env k) as [[a| |x] e]; exact H.
Qed.

Lemma always_when c m : always P m -> always P (when c m).
Proof. destruct c; [auto|intros _; apply always_ret]. Qed.

Lemma always_for_each A (l : list A) body :
  (forall a, always P (body a)) -> always P (for_each l body).
Proof.
  intros H. induction l as [|a l IH]; cbn [for_each].
  - apply always_ret.
  - apply always_bind; auto.
Qed.

Lemma always_comprehension A B (f : A -> M B) l :
  (forall a, always P (f a)) -> always P (comprehension f l).
Proof.
  intros H. induction l as [|a l IH]; cbn [comprehension].
  - apply always_ret.
  - apply always_bind; auto. intros b. apply always_bind; auto.
    intros bs. apply always_ret.
Qed.

Lemma always_index A (l : list A) i : always P (index l i).
Proof.
  unfold index. destruct (nth_error l i); [apply always_ret|apply always_raise].
Qed.

Lemma always_decode b : always P (decode b).
Proof.
  unfold decode. destruct (Py.decode b); [apply always_ret|apply always_raise].
Qed.

Lemma always_start c : (forall r, P (EvRun c r)) -> always P (start c).
Proof. intros H env k. repeat constructor. apply H. Qed.

Lemma always_subprocess_run c :
  (forall r, P (EvRun c r)) -> always P (subprocess_run c).
Proof.
  intros H. unfold subprocess_run.
  destruct (startable c); [now apply always_start|apply always_raise].
Qed.

Lemma always_subprocess_run_list argv :
  (forall args r, check_args argv = inr args -> P (EvRun (Exec args) r)) ->
  always P (subprocess_run_list argv).
Proof.
  intros H. unfold subprocess_run_list.
  destruct (check_args argv) as [e|args]; [apply always_raise|].
  apply always_start. intros r. now apply H.
Qed.

(** The events of the script, under what [P] has to allow. *)
Hypothesis P_debug : forall msg, P (EvLog DEBUG msg).
Hypothesis P_error_pin : P (EvLog ERROR (LStr "GPIO for LED not found")).
Hypothesis P_error_cmd :
  P (EvLog ERROR (LStr "Invalid command. Doing nothing.")).
Hypothesis P_print : forall line, P (EvPrint line).
Hypothesis P_sleep : forall s, P (EvSleep s).
Hypothesis P_shell :
  forall s r, In s shell_lines -> P (EvRun (Shell s) r).
Hypothesis P_exec :
  forall p args r, In p programs -> P (EvRun (Exec (p :: args)) r).

Ltac effects :=
  repeat first
    [ match goal with
      | H : forall a b c, always P (?f a b c) |- always P (?f _ _ _) => apply H
      | H : forall a b, always P (?f a b) |- always P (?f _ _) => apply H
      | H : forall a, always P (?f a) |- always P (?f _) => apply H
      | H : always P ?m |- always P ?m => exact H
      | |- forall _, always P _ => intro
      end
    | apply always_func | apply always_bind
    | apply always_when | apply always_for_each | apply always_comprehension
    | apply always_ret | apply always_return | apply always_raise
    | apply always_index | apply always_decode
    | apply always_emit
    | apply always_subprocess_run; intro
    | apply P_debug | exact P_error_pin | exact P_error_cmd
    | apply P_print | apply P_sleep
    | apply P_shell; cbn; tauto
    | apply P_exec; cbn; tauto ].

Lemma always_bt_check_mpc_err : always P bt_check_mpc_err.
Proof. unfold bt_check_mpc_err, logger_debug. effects. Qed.

Lemma always_bt_led pin on : always P (bt_led pin on).
Proof.
  unfold bt_led, logger_debug. destruct pin; effects.
Qed.

Lemma always_bt_leds pins states : always P (bt_leds pins states).
Proof.
  pose proof always_bt_led as Hled. unfold bt_leds. effects.
Qed.

Lemma always_bt_switch_to n pins states :
  always P (bt_switch_to n pins states).
Proof.
  pose proof always_bt_check_mpc_err as Hc.
  pose proof always_bt_leds as Hl.
  unfold bt_switch_to, print, sleep, logger_debug. effects.
Qed.

Lemma always_bt_find_led_pin pin : always P (bt_find_led_pin pin).
Proof.
  unfold bt_find_led_pin, logger_debug, logger_error.
  apply always_bind.
  - apply always_subprocess_run_list. intros args r E.
    destruct pin as [name|]; cbn [check_args] in E; settle_args_in E;
      [destruct (has_nul name)|]; try discriminate.
    injection E as <-. apply P_exec. cbn. tauto.
  - intros proc. destruct (negb _); effects.
Qed.

Lemma always_bt_connect_all : always P bt_connect_all.
Proof.
  unfold bt_connect_all, logger_debug. effects.
  destruct (Re.device _); effects.
Qed.

Lemma always_bt_switch cmd led_pins : always P (bt_switch cmd led_pins).
Proof.
  pose proof always_bt_switch_to as Hs.
  pose proof always_bt_find_led_pin as Hf.
  pose proof always_bt_connect_all as Hc.
  pose proof always_bt_leds as Hl.
  unfold bt_switch, print, sleep, logger_debug, logger_error.
  apply always_func. apply always_bind; [effects|intros _].
  apply always_bind; [effects|intros pins].
  apply always_bind; [effects|intros outputs].
  apply always_bind; [effects|intros _].
  apply always_bind; [|effects].
  destruct (_ || _).
  - apply always_bind; [effects|intros info].
    apply always_bind; [effects|intros _].
    destruct (Re.search _ _); effects.
  - destruct (_ || _); effects.
Qed.

Lemma always_bt_usage sname : always P (bt_usage sname).
Proof. unfold bt_usage, print. effects. Qed.

End Always.

(** ** When the resolution of the pins raises *)

Ltac top1 :=
  cbv beta iota zeta delta [bind emit func ret when
    subprocess_run start sleep print logger_debug logger_error
    raise return_ run];
  cbn [app fst snd ncalls Nat.add String.eqb Ascii.eqb Bool.eqb
       negb andb orb];
  settle_args.
Ltac top := repeat (progress top1).

Lemma find_pins_none pins env k :
  In None pins ->
  exists x evs,
    comprehension bt_find_led_pin pins env k = (Raised x, evs) /\
    Forall (only_tool "gpiofind") evs.
Proof.
  intros Hin.
  destruct (comprehension bt_find_led_pin pins env k) as [o evs] eqn:E.
  apply find_pins_spec in E. destruct E as (F & R & N).
  destruct o as [ds| |x].
  - destruct (N ds eq_refl) as (_ & names & -> & _).
    apply in_map_iff in Hin. destruct Hin as (n & Hn & _). discriminate.
  - congruence.
  - eauto.
Qed.

Lemma bt_switch_resolution_raises env cmd led_pins x evs :
  valid_command cmd = true ->
  comprehension bt_find_led_pin led_pins env 0%nat = (Raised x, evs) ->
  run (bt_switch cmd led_pins) env = (Raised x, evs).
Proof.
  intros Hv E. apply valid_command_cases in Hv.
  destruct Hv as [->|[->|[->|[->| ->]]]];
    rewrite bt_switch_unfold; top; rewrite E; reflexivity.
Qed.

(** ** The bounds of the LED loop *)

Lemma bt_led_outcome pin on env k :
  fst (bt_led pin on env k) = Normal tt \/
  exists x, fst (bt_led pin on env k) = Raised x.
Proof.
  unfold bt_led. destruct pin as [[|chip [|line rest]]|]; exec;
    try split_args; exec; eauto.
Qed.

Lemma leds_loop_short pins states env n : forall i k,
  (i + n = length pins)%nat -> (i <= length states)%nat ->
  (length states < length pins)%nat ->
  exists x,
    fst (for_each (seq i n) (leds_body pins states) env k) = Raised x.
Proof.
  induction n as [|n IH]; intros i k Hlen Hi Hs; [lia|].
  cbn [seq for_each]. unfold bind at 1, leds_body at 1. exec.
  destruct (nth_error pins i) as [pin|] eqn:Ep;
    [|apply nth_error_None in Ep; lia].
  exec. destruct (nth_error states i) as [st|] eqn:Es; exec; [|eauto].
  assert (i < length states)%nat by (apply nth_error_Some; congruence).
  pose proof (bt_led_outcome pin st env k) as Ho.
  destruct (bt_led pin st env k) as [[[]| |x] e1]; simpl in Ho;
    destruct Ho as [Ho|[y Ho]]; try discriminate.
  - specialize (IH (S i) (ncalls e1 + k)%nat).
    destruct (for_each _ _ _ _) as [o' e2]. simpl in *. apply IH; lia.
  - eauto.
Qed.

(** Without descriptors no process is started: the loop ends at the
    first slot without a level. *)
Lemma leds_loop_none pins states env n : forall i k,
  Forall (eq None) pins ->
  (i + n = length pins)%nat -> (i <= length states)%nat ->
  (length states < length pins)%nat ->
  for_each (seq i n) (leds_body pins states) env k = (Raised IndexError, []).
Proof.
  induction n as [|n IH]; intros i k Hn Hlen Hi Hs; [lia|].
  cbn [seq for_each]. unfold bind at 1, leds_body at 1. exec.
  destruct (nth_error pins i) as [pin|] eqn:Ep;
    [|apply nth_error_None in Ep; lia].
  assert (pin = None) as ->.
  { rewrite Forall_forall in Hn. symmetry. eapply Hn, nth_error_In, Ep. }
  exec. destruct (nth_error states i) as [st|] eqn:Es; exec; [|reflexivity].
  assert (i < length states)%nat by (apply nth_error_Some; congruence).
  unfold bt_led. exec.
  rewrite (IH (S i) k) by (auto; lia). reflexivity.
Qed.

Lemma comprehension_length A B (f : A -> M B) l : forall env k ds evs,
  comprehension f l env k = (Normal ds, evs) -> length ds = length l.
Proof.
  induction l as [|a l IH]; intros env k ds evs; cbn [comprehension].
  - intros H. pair_inv H. reflexivity.
  - unfold bind at 1. destruct (f a env k) as [[b| |x] e1]; try discriminate.
    unfold bind at 1.
    destruct (comprehension f l env _) as [[bs| |x] e2] eqn:E;
      try discriminate.
    exec. intros H. pair_inv H. simpl. f_equal. eapply IH, E.
Qed.

Ltac start_any H Ef :=
  rewrite bt_switch_unfold in H; top_in H;
  match type of H with
  | context [comprehension bt_find_led_pin ?pins ?env ?k] =>
      destruct (comprehension bt_find_led_pin pins env k) as [o1 finds] eqn:Ef;
      let Hr := fresh "Hr" in
      pose proof (find_pins_spec _ _ _ Ef) as (_ & Hr & _);
      destruct o1 as [ds| |x]; [|congruence|discriminate];
      clear Hr; apply comprehension_length in Ef
  end;
  top_in H;
  name_answer H (Shell "mpc outputs") outputs.

Ltac do_connect_any H :=
  match type of H with
  | context [bt_connect_all ?e ?k] =>
      let o := fresh "o" in
      let c := fresh "c" in
      let E := fresh "Ec" in
      destruct (bt_connect_all e k) as [o c] eqn:E;
      apply bt_connect_all_spec in E;
      destruct E as (Rc & _);
      destruct o as [[]| |?]; [ | congruence | discriminate ]
  end.

Ltac do_blink_any H :=
  match type of H with
  | context [for_each (seq 0 3) (blink_body ?a) ?e ?k] =>
      let o := fresh "o" in
      let b := fresh "blinks" in
      let E := fresh "Eb" in
      destruct (for_each (seq 0 3) (blink_body a) e k) as [o b] eqn:E;
      apply blink_loop in E;
      destruct E as (Rb & _);
      destruct o as [[]| |?]; [ | congruence | discriminate ]
  end.

(** An invocation that runs to its end has run the LED loop to its end,
    over as many descriptors as pins were given and two levels. *)
Lemma bt_switch_ends_with_leds env cmd led_pins t :
  valid_command cmd = true ->
  run (bt_switch cmd led_pins) env = (Normal tt, t) ->
  exists pins states k leds,
    bt_leds pins states env k = (Normal tt, leds) /\
    length pins = length led_pins /\ length states = 2%nat.
Proof.
  intros Hv H. apply valid_command_cases in Hv.
  destruct Hv as [->|[->|[->|[->| ->]]]]; start_any H Ef.
  - split_search H.
    + do_switch H. eauto 10.
    + name_answer H (Shell "bluetoothctl info") info. split_search H.
      * do_switch H. eauto 10.
      * do_connect_any H. top_in H. do_blink_any H. top_in H. do_switch H.
        eauto 10.
  - do_switch H. eauto 10.
  - name_answer H (Shell "bluetoothctl info") info. split_search H.
    + do_switch H. eauto 10.
    + do_connect_any H. top_in H. do_blink_any H. top_in H. do_switch H.
      eauto 10.
  - split_search H; do_switch H; eauto 10.
  - do_switch H. eauto 10.
Qed.

(** ** The device pattern *)

Lemma append_nil_l (s : string) : ("" ++ s)%string = s.
Proof. reflexivity. Qed.

Lemma append_cons (c : ascii) (a b : string) :
  (String c a ++ b)%string = String c (a ++ b).
Proof. reflexivity. Qed.

Lemma strip_literal_app lit : forall s rest,
  Re.strip_literal lit s = Some rest <-> s = (lit ++ rest)%string.
Proof.
  induction lit as [|a lit IH]; intros s rest; cbn [Re.strip_literal].
  - rewrite append_nil_l. split; congruence.
  - rewrite append_cons. destruct s as [|b s].
    + split; discriminate.
    + destruct (Ascii.eqb_spec a b) as [->|Hab].
      * rewrite IH. split; congruence.
      * split; [discriminate|]. intros [= ? ?]. congruence.
Qed.

Lemma span_spec p : forall s a b,
  Re.span p s = (a, b) ->
  s = (a ++ b)%string /\ forallb p (list_ascii_of_string a) = true /\
  match b with
  | String c _ => p c = false
  | EmptyString => True
  end.
Proof.
  induction s as [|c s IH]; intros a b; cbn [Re.span].
  - intros [= <- <-]. auto.
  - destruct (p c) eqn:Ec.
    + destruct (Re.span p s) as [a' b'] eqn:E. intros [= <- <-].
      destruct (IH _ _ eq_refl) as (-> & Ha & Hb).
      rewrite append_cons. cbn [list_ascii_of_string forallb].
      rewrite Ec, Ha. auto.
    + intros [= <- <-]. rewrite append_nil_l.
      cbn [list_ascii_of_string forallb]. rewrite Ec. auto.
Qed.

Lemma span_app p : forall a c rest,
  forallb p (list_ascii_of_string a) = true -> p c = false ->
  Re.span p (a ++ String c rest) = (a, String c rest).
Proof.
  induction a as [|x a IH]; intros c rest Ha Hc;
    rewrite ?append_nil_l, ?append_cons;
    cbn [list_ascii_of_string forallb Re.span] in *.
  - now rewrite Hc.
  - apply andb_true_iff in Ha. destruct Ha as [Hx Ha].
    now rewrite Hx, IH.
Qed.

(** ** Runs that cannot raise *)

Lemma bt_find_led_pin_ok name env k :
  has_nul name = false ->
  well_formed_find (env k (Exec ["gpiofind"; name])) = true ->
  exists d evs,
    bt_find_led_pin (Some name) env k = (Normal d, evs) /\ usable d = true.
Proof.
  intros Hn Hw. unfold well_formed_find in Hw. unfold bt_find_led_pin. exec.
  rewrite Hn. exec.
  cbv delta [Py.str Py.bytes] in *.
  match goal with |- context [negb ?b] => destruct b eqn:Erc end;
    cbn [negb]; exec.
  - cbn [negb orb] in Hw.
    match goal with |- context [Py.decode ?b] =>
      destruct (Py.decode b) as [text|] eqn:Ed
    end; [|discriminate].
    exec. do 2 eexists. split; [reflexivity|exact Hw].
  - do 2 eexists. split; reflexivity.
Qed.

Lemma find_pins_ok env names :
  existsb has_nul names = false ->
  (forall k name, well_formed_find (env k (Exec ["gpiofind"; name])) = true) ->
  forall k, exists ds evs,
    comprehension bt_find_led_pin (map Some names) env k = (Normal ds, evs)
    /\ forallb usable ds = true /\ length ds = length names.
Proof.
  intros Hn Hw. induction names as [|name names IH]; intros k.
  - exists [], []. repeat split.
  - cbn [existsb] in Hn. apply orb_false_iff in Hn. destruct Hn as [Hn Hns].
    cbn [map comprehension]. unfold bind at 1.
    destruct (bt_find_led_pin_ok name env k Hn (Hw k name))
      as (d & e1 & E1 & Hd).
    destruct (IH Hns (ncalls e1 + k)%nat) as (ds & e2 & E2 & Hds & Hl).
    cbv delta [Py.str Py.bytes] in *. rewrite E1. unfold bind at 1.
    rewrite E2. exec. do 2 eexists. split; [reflexivity|].
    cbn [forallb length]. rewrite Hd, Hds, Hl. auto.
Qed.

Lemma has_nul_app a b : has_nul (a ++ b) = has_nul a || has_nul b.
Proof.
  unfold has_nul. induction a as [|c a IH]; [reflexivity|].
  rewrite append_cons. cbn [list_ascii_of_string existsb].
  now rewrite IH, orb_assoc.
Qed.

Lemma level_startable chip line (on : bool) :
  has_nul chip = false -> has_nul line = false ->
  startable
    (Exec ["gpioset"; chip; (line ++ "=" ++ (if on then "1" else "0"))%string])
  = true.
Proof.
  intros Hc Hl. unfold startable. cbn [call_args existsb].
  rewrite Hc, !has_nul_app, Hl. now destruct on.
Qed.

Lemma bt_led_ok pin on env k :
  usable pin = true -> exists evs, bt_led pin on env k = (Normal tt, evs).
Proof.
  unfold bt_led. destruct pin as [[|chip [|line rest]]|]; try discriminate;
    cbn [usable]; intros Hu; exec; eauto.
  apply andb_true_iff in Hu. destruct Hu as [Hc Hl].
  apply negb_true_iff in Hc, Hl.
  match goal with
  | |- context [startable ?c] =>
      replace (startable c) with true
        by (symmetry; exact (@level_startable chip line on Hc Hl))
  end.
  exec. eauto.
Qed.

Lemma leds_loop_ok pins states env n : forall i k,
  forallb usable pins = true -> (length pins <= length states)%nat ->
  (i + n = length pins)%nat ->
  exists evs,
    for_each (seq i n) (leds_body pins states) env k = (Normal tt, evs).
Proof.
  induction n as [|n IH]; intros i k Hu Hs Hlen.
  - exists []. reflexivity.
  - cbn [seq for_each]. unfold bind at 1, leds_body at 1. exec.
    destruct (nth_error pins i) as [pin|] eqn:Ep;
      [|apply nth_error_None in Ep; lia].
    destruct (nth_error states i) as [st|] eqn:Es;
      [|apply nth_error_None in Es; lia].
    exec.
    assert (Hp : usable pin = true).
    { rewrite forallb_forall in Hu. eapply Hu, nth_error_In, Ep. }
    destruct (bt_led_ok pin st env k Hp) as (e1 & ->).
    destruct (IH (S i) (ncalls e1 + k)%nat Hu Hs) as (e2 & ->); [lia|].
    eauto.
Qed.

Lemma bt_leds_ok pins states env k :
  forallb usable pins = true -> (length pins <= length states)%nat ->
  exists evs, bt_leds pins states env k = (Normal tt, evs).
Proof.
  intros Hu Hs. rewrite bt_leds_unfold. unfold func.
  destruct (leds_loop_ok pins states env (length pins) 0 k Hu Hs eq_refl)
    as (evs & ->).
  eauto.
Qed.

Lemma bt_switch_to_ok n pins states env k :
  forallb usable pins = true -> (length pins <= length states)%nat ->
  exists evs, bt_switch_to n pins states env k = (Normal tt, evs).
Proof.
  intros Hu Hs.
  destruct (bt_switch_to n pins states env k) as [o evs] eqn:E.
  pose proof E as E'. apply bt_switch_to_spec in E'.
  destruct E' as (r1 & r2 & status & play & leds & k' & _ & El).
  destruct (bt_leds_ok pins states env k' Hu Hs) as (l & El').
  rewrite El' in El. pair_inv El. eauto.
Qed.

Lemma bt_connect_all_decoded env k text :
  Py.decode (stdout (env k (Shell "bluetoothctl devices"))) = Some text ->
  exists connects,
    bt_connect_all env k =
    (Normal tt,
     EvRun (Shell "bluetoothctl devices") (env k (Shell "bluetoothctl devices"))
     :: EvLog DEBUG (LBytes (stdout (env k (Shell "bluetoothctl devices"))))
     :: connects) /\
    Forall (only_tool "bluetoothctl") connects /\
    steps connects =
    connect_steps
      (devices_in (stdout (env k (Shell "bluetoothctl devices")))).
Proof.
  intros Ed. rewrite bt_connect_all_unfold. exec. unfold devices_in.
  rewrite Ed. exec.
  destruct (connect_loop (Py.split newline (Py.strip text)) env (S k))
    as (evs & E & F & S).
  rewrite E. exists evs. auto.
Qed.

Lemma bt_connect_all_undecoded env k :
  Py.decode (stdout (env k (Shell "bluetoothctl devices"))) = None ->
  bt_connect_all env k =
  (Raised UnicodeDecodeError,
   [EvRun (Shell "bluetoothctl devices") (env k (Shell "bluetoothctl devices"));
    EvLog DEBUG (LBytes (stdout (env k (Shell "bluetoothctl devices"))))]).
Proof.
  intros Ed. rewrite bt_connect_all_unfold. exec. rewrite Ed. reflexivity.
Qed.

Lemma blink_loop_ok pins cycles :
  forallb usable pins = true -> (length pins <= 2)%nat ->
  forall env k, exists evs,
    for_each cycles (blink_body pins) env k = (Normal tt, evs).
Proof.
  intros Hu Hs. induction cycles as [|c cycles IH]; intros env k.
  - exists []. reflexivity.
  - cbn [for_each]. unfold bind at 1, blink_body at 1. exec.
    destruct (bt_leds_ok pins [true; false] env k Hu Hs) as (e1 & ->). exec.
    match goal with |- context [bt_leds pins [false; false] env ?k'] =>
      destruct (bt_leds_ok pins [false; false] env k' Hu Hs) as (e2 & ->)
    end.
    exec.
    match goal with |- context [for_each cycles _ env ?k'] =>
      destruct (IH env k') as (e3 & ->)
    end.
    eauto.
Qed.

(** ** Prints and pauses of a trace in pieces *)

Lemma prints_app a b : prints (a ++ b) = prints a ++ prints b.
Proof.
  induction a as [|[c r| | |] a IH]; simpl; congruence.
Qed.

Lemma calls_app a b : calls (a ++ b) = calls a ++ calls b.
Proof.
  induction a as [|[c r| | |] a IH]; simpl; congruence.
Qed.

Lemma prints_only pauses name evs :
  Forall (tool_event pauses name) evs -> prints evs = [].
Proof.
  induction 1 as [|[[s'|[|p l]] r| | |] a He Ha IH]; simpl in *;
    auto; contradiction.
Qed.

Lemma pauses_steps t : pauses t = step_pauses (steps t).
Proof.
  induction t as [|[c r| | |] t IH]; simpl; congruence.
Qed.

Lemma step_pauses_app a b :
  step_pauses (a ++ b) = step_pauses a ++ step_pauses b.
Proof.
  induction a as [|[c|s] a IH]; simpl; congruence.
Qed.

Lemma step_pauses_calls A (f : A -> call) l :
  step_pauses (map (fun a => Call (f a)) l) = [].
Proof. induction l; simpl; auto. Qed.

Lemma step_pauses_blink pins :
  step_pauses (blink_steps pins) = [1 # 4; 1 # 4].
Proof.
  unfold blink_steps, led_steps.
  rewrite !step_pauses_app, !step_pauses_calls. reflexivity.
Qed.

Lemma recovery_prints status play : prints (recovery_events status play) = [].
Proof. unfold recovery_events. now destruct (Re.search _ _). Qed.

Lemma bt_leds_short env k led_pins led_states :
  (length led_states < length led_pins)%nat ->
  exists x, fst (bt_leds led_pins led_states env k) = Raised x.
Proof.
  intros Hs. rewrite bt_leds_unfold. unfold func.
  destruct (@leds_loop_short led_pins led_states env (length led_pins)
              0%nat k eq_refl (Nat.le_0_l _) Hs) as [x H].
  destruct (for_each _ _ _ _) as [[a| |y] e]; simpl in H; try discriminate.
  simpl. eauto.
Qed.

Lemma known_calls_of_events t :
  Forall (fun e => match e with
                   | EvRun c _ => known_call c = true
                   | _ => True
                   end) t ->
  forallb known_call (calls t) = true.
Proof.
  induction 1 as [|[c r| | |] t He Ht IH]; simpl; auto.
  now rewrite He, IH.
Qed.

(** ** The properties *)

(** X1. A pin name that is absent stops every invocation with a
    recognised command during the resolution of the pins: the invocation
    raises, and it has not queried the outputs of the player, issued an
    enable command or set a LED level. *)
Theorem absent_pin_stops_invocation env cmd led_pins :
  valid_command cmd = true ->
  In None led_pins ->
  (exists x, fst (run (bt_switch cmd led_pins) env) = Raised x) /\
  responses (Shell "mpc outputs") (snd (run (bt_switch cmd led_pins) env)) = []
  /\ enable_calls (snd (run (bt_switch cmd led_pins) env)) = []
  /\ led_sets (snd (run (bt_switch cmd led_pins) env)) = [].
Proof.
  intros Hv Hin.
  destruct (@find_pins_none led_pins env 0%nat Hin) as (x & evs & E & F).
  rewrite (@bt_switch_resolution_raises env cmd led_pins x evs Hv E).
  cbn [fst snd].
  split; [eauto|].
  rewrite (responses_shell_only _ F), (enable_calls_only F),
    (led_sets_only F) by discriminate.
  auto.
Qed.

Lemma absent_pin_stops_invocation_witness :
  valid_command "headphones" = true /\
  In None [Some "GPIO27"; None] /\
  (exists x,
     fst (run (bt_switch "headphones" [Some "GPIO27"; None]) tools_connected)
     = Raised x) /\
  responses (Shell "mpc outputs")
    (snd (run (bt_switch "headphones" [Some "GPIO27"; None]) tools_connected))
  = [] /\
  enable_calls
    (snd (run (bt_switch "headphones" [Some "GPIO27"; None]) tools_connected))
  = [] /\
  led_sets
    (snd (run (bt_switch "headphones" [Some "GPIO27"; None]) tools_connected))
  = [].
Proof.
  split; [reflexivity|]. split; [simpl; auto|].
  apply (@absent_pin_stops_invocation tools_connected "headphones"
           [Some "GPIO27"; None]); [reflexivity|simpl; auto].
Defined.

(** X2. With at most two pin names, none absent and none with a NUL
    character, an invocation with a recognised command runs to its end
    whenever the answers of [gpiofind] are failures or texts of at least
    two fields, the first two without a NUL character, and the device
    list is valid UTF-8: whatever else the started tools answer, and
    whatever their exit codes, nothing raises. *)
Theorem bt_switch_completes env cmd names :
  valid_command cmd = true ->
  (length names <= 2)%nat ->
  existsb has_nul names = false ->
  (forall k name, well_formed_find (env k (Exec ["gpiofind"; name])) = true) ->
  (forall k,
     Py.decode (stdout (env k (Shell "bluetoothctl devices"))) <> None) ->
  fst (run (bt_switch cmd (map Some names)) env) = Normal tt.
Proof.
  intros Hv Hlen Hnul Hf Hd. apply valid_command_cases in Hv.
  destruct (@find_pins_ok env names Hnul Hf 0%nat)
    as (ds & finds & Ef & Hu & Hl).
  assert (Hs : forall n states e k, length states = 2%nat ->
            exists evs, bt_switch_to n ds states e k = (Normal tt, evs)).
  { intros n states e k H2. apply bt_switch_to_ok; [exact Hu|lia]. }
  assert (Hc : forall k, exists evs, bt_connect_all env k = (Normal tt, evs)).
  { intros k.
    destruct (Py.decode (stdout (env k (Shell "bluetoothctl devices"))))
      as [text|] eqn:Ed; [|now elim (Hd k)].
    destruct (@bt_connect_all_decoded env k text Ed) as (c & -> & _). eauto. }
  assert (Hb : forall k, exists evs,
            for_each (seq 0 3) (blink_body ds) env k = (Normal tt, evs)).
  { intros k. apply blink_loop_ok; [exact Hu|lia]. }
  destruct Hv as [->|[->|[->|[->| ->]]]];
    rewrite bt_switch_unfold; top; cbv delta [Py.str Py.bytes] in *;
    rewrite Ef; top;
    repeat first
      [ match goal with
        | |- context [bt_switch_to ?n ds ?st env ?k] =>
            let e := fresh "e" in
            let E := fresh "E" in
            destruct (Hs n st env k eq_refl) as (e & E); rewrite E; top
        | |- context [bt_connect_all env ?k] =>
            let e := fresh "e" in
            let E := fresh "E" in
            destruct (Hc k) as (e & E); rewrite E; top
        | |- context [for_each (seq 0 3) (blink_body ds) env ?k] =>
            let e := fresh "e" in
            let E := fresh "E" in
            destruct (Hb k) as (e & E); rewrite E; top
        end
      | match goal with
        | |- context [Re.search ?re ?s] => destruct (Re.search re s); top
        end ];
    reflexivity.
Qed.

Lemma bt_switch_completes_witness :
  valid_command "toggle" = true /\
  (length ["GPIO27"; "GPIO17"] <= 2)%nat /\
  existsb has_nul ["GPIO27"; "GPIO17"] = false /\
  (forall k name,
     well_formed_find (tools_absent k (Exec ["gpiofind"; name])) = true) /\
  (forall k,
     Py.decode (stdout (tools_absent k (Shell "bluetoothctl devices")))
     <> None) /\
  fst (run (bt_switch "toggle" (map Some ["GPIO27"; "GPIO17"])) tools_absent)
  = Normal tt.
Proof.
  assert (H1 : forall k name,
            well_formed_find (tools_absent k (Exec ["gpiofind"; name])) = true).
  { intros k name. unfold tools_absent, canned. cbn [String.eqb Ascii.eqb Bool.eqb].
    destruct (name =? "GPIO27")%string; [reflexivity|].
    destruct (name =? "GPIO17")%string; reflexivity. }
  assert (H2 : forall k,
            Py.decode (stdout (tools_absent k (Shell "bluetoothctl devices")))
            <> None).
  { intros k. vm_compute. discriminate. }
  split; [reflexivity|]. split; [simpl; lia|]. split; [reflexivity|].
  split; [exact H1|]. split; [exact H2|].
  apply (@bt_switch_completes tools_absent "toggle" ["GPIO27"; "GPIO17"]);
    [reflexivity|simpl; lia|reflexivity|exact H1|exact H2].
Defined.

(** X3. The LED loop reads a level for every pin: with more than two
    pins, no invocation with a recognised command runs to its end. *)
Theorem more_than_two_pins_raise env cmd led_pins :
  valid_command cmd = true ->
  (2 < length led_pins)%nat ->
  exists x, fst (run (bt_switch cmd led_pins) env) = Raised x.
Proof.
  intros Hv Hlen.
  destruct (run (bt_switch cmd led_pins) env) as [o t] eqn:E.
  destruct o as [[]| |x]; cbn [fst]; [| |eauto].
  - apply bt_switch_ends_with_leds in E; [|exact Hv].
    destruct E as (pins & states & k & leds & El & Hp & Hs).
    assert (Hlt : (length states < length pins)%nat) by lia.
    destruct (@bt_leds_short env k pins states Hlt) as [x Hr].
    rewrite El in Hr. discriminate.
  - pose proof (func_not_returned) as Hr. rewrite bt_switch_unfold in E.
    unfold run in E.
    match type of E with
    | func ?b env ?k = _ => specialize (Hr b env k); rewrite E in Hr
    end.
    now elim Hr.
Qed.

Lemma more_than_two_pins_raise_witness :
  valid_command "speakers" = true /\
  (2 < length [Some "GPIO27"; Some "GPIO17"; Some "GPIO22"])%nat /\
  exists x,
    fst (run (bt_switch "speakers"
                [Some "GPIO27"; Some "GPIO17"; Some "GPIO22"])
           tools_connected) = Raised x.
Proof.
  split; [reflexivity|]. split; [simpl; lia|].
  apply (@more_than_two_pins_raise tools_connected "speakers"
           [Some "GPIO27"; Some "GPIO17"; Some "GPIO22"]);
    [reflexivity|simpl; lia].
Defined.

(** X4. [bt_leds] reads the level of a slot before it looks at the
    descriptor: with fewer levels than descriptors it raises, whatever
    the descriptors are, and when every descriptor is [None] it raises
    [IndexError] without a single call. *)
Theorem led_states_too_short env k led_pins led_states :
  (length led_states < length led_pins)%nat ->
  (exists x, fst (bt_leds led_pins led_states env k) = Raised x) /\
  (Forall (eq None) led_pins ->
   bt_leds led_pins led_states env k = (Raised IndexError, [])).
Proof.
  intros Hs. split; [now apply bt_leds_short|].
  intros Hn. rewrite bt_leds_unfold. unfold func.
  now rewrite (@leds_loop_none led_pins led_states env (length led_pins)
                 0%nat k Hn eq_refl (Nat.le_0_l _) Hs).
Qed.

Lemma led_states_too_short_witness :
  (length [true; false] < length [@None (list Py.str); None; None])%nat /\
  (exists x,
     fst (bt_leds [None; None; None] [true; false] tools_connected 0%nat)
     = Raised x) /\
  (Forall (eq None) [@None (list Py.str); None; None] ->
   bt_leds [None; None; None] [true; false] tools_connected 0%nat
   = (Raised IndexError, [])).
Proof.
  split; [simpl; lia|].
  apply (@led_states_too_short tools_connected 0%nat [None; None; None]
           [true; false]).
  simpl; lia.
Defined.

(** X5. [bt_connect_all] lists the devices once and then tries to
    connect each device of the list, in the order of the list, whatever
    the earlier attempts answered; the only way for it to raise is a
    list that is not valid UTF-8, and then no connect is tried. *)
Theorem connect_all_attempts env k :
  match Py.decode (stdout (env k (Shell "bluetoothctl devices"))) with
  | Some _ =>
      fst (bt_connect_all env k) = Normal tt /\
      steps (snd (bt_connect_all env k)) =
      Call (Shell "bluetoothctl devices")
      :: connect_steps
           (devices_in (stdout (env k (Shell "bluetoothctl devices"))))
  | None =>
      fst (bt_connect_all env k) = Raised UnicodeDecodeError /\
      steps (snd (bt_connect_all env k)) =
      [Call (Shell "bluetoothctl devices")]
  end.
Proof.
  destruct (Py.decode (stdout (env k (Shell "bluetoothctl devices"))))
    as [text|] eqn:Ed.
  - destruct (@bt_connect_all_decoded env k text Ed) as (c & -> & _ & S).
    cbn [fst snd steps]. now rewrite S.
  - rewrite (@bt_connect_all_undecoded env k Ed). split; reflexivity.
Qed.

(** X6. Whatever the command, the pins and the answers of the tools,
    and however the invocation ends, every command line handed to a
    shell is one of five fixed texts, and every program started with an
    argument list is [gpiofind], [mpc], [bluetoothctl] or [gpioset]:
    no text that a tool answered reaches a shell. *)
Theorem only_known_calls env cmd led_pins :
  forallb known_call (calls (snd (run (bt_switch cmd led_pins) env))) = true.
Proof.
  apply known_calls_of_events.
  apply always_bt_switch; try exact I; try (intros; exact I).
  - intros s r Hin. unfold known_call.
    apply existsb_exists. exists s. split; [exact Hin|apply String.eqb_refl].
  - intros p args r Hin. unfold known_call.
    apply existsb_exists. exists p. split; [exact Hin|apply String.eqb_refl].
Qed.

(** X7. A line of the device list yields a device exactly when it is
    the text [Device], a space, any number of characters among the
    digits, [A] to [F] and the colon, a space, and any rest; the device
    is that run of characters, which may be empty. *)
Theorem device_pattern line d :
  Re.device line = Some d <->
  forallb Re.hex_colon (list_ascii_of_string d) = true /\
  exists rest, line = ("Device " ++ d ++ " " ++ rest)%string.
Proof.
  unfold Re.device. split.
  - destruct (Re.strip_literal "Device " line) as [rest|] eqn:El;
      [|discriminate].
    apply strip_literal_app in El. subst line.
    destruct (Re.span Re.hex_colon rest) as [g after] eqn:Es.
    apply span_spec in Es. destruct Es as (-> & Hg & Ha).
    destruct after as [|c after]; [discriminate|].
    destruct (Py.is_byte 32 c) eqn:Ec; [|discriminate].
    intros [= <-]. split; [exact Hg|]. exists after.
    assert (c = " "%char) as ->; [|reflexivity].
    unfold Py.is_byte, Py.code in Ec. apply N.eqb_eq in Ec.
    rewrite <- (ascii_N_embedding c), Ec. reflexivity.
  - intros (Hd & rest & ->).
    assert (El : Re.strip_literal "Device " ("Device " ++ d ++ " " ++ rest)
                 = Some (d ++ " " ++ rest)%string)
      by now apply strip_literal_app.
    rewrite El.
    change (" " ++ rest)%string with (String " "%char rest).
    rewrite span_app by (exact Hd || reflexivity). reflexivity.
Qed.


(** X8. With descriptors that are [None] or hold a chip and a line
    offset without a NUL character, and a level for each of them,
    [bt_leds] runs to its end and sets the level of every slot with a
    descriptor, in the order of the slots, whatever the started
    [gpioset] answers and whatever its exit code. *)
Theorem led_levels_whatever_gpioset_answers env k led_pins led_states :
  forallb usable led_pins = true ->
  (length led_pins <= length led_states)%nat ->
  fst (bt_leds led_pins led_states env k) = Normal tt /\
  led_sets (snd (bt_leds led_pins led_states env k))
  = led_calls led_pins led_states.
Proof.
  intros Hu Hs.
  destruct (@bt_leds_ok led_pins led_states env k Hu Hs) as (evs & E).
  rewrite E. split; [reflexivity|].
  apply bt_leds_normal in E. apply E.
Qed.

Lemma led_levels_whatever_gpioset_answers_witness :
  forallb usable [Some ["gpiochip0"; "27"]; None] = true /\
  (length [Some ["gpiochip0"; "27"]; @None (list Py.str)]
   <= length [true; false])%nat /\
  fst (bt_leds [Some ["gpiochip0"; "27"]; None] [true; false]
         (fun _ _ => answer 1 "gpioset: error") 0%nat) = Normal tt /\
  led_sets (snd (bt_leds [Some ["gpiochip0"; "27"]; None] [true; false]
                   (fun _ _ => answer 1 "gpioset: error") 0%nat))
  = led_calls [Some ["gpiochip0"; "27"]; None] [true; false].
Proof.
  split; [reflexivity|]. split; [simpl; lia|].
  apply (@led_levels_whatever_gpioset_answers
           (fun _ _ => answer 1 "gpioset: error") 0%nat
           [Some ["gpiochip0"; "27"]; None] [true; false]);
    [reflexivity|simpl; lia].
Defined.

Lemma shown_forall (P : event -> Prop) console t :
  Forall P t ->
  forall lvl msg, In (lvl, msg) (shown console t) ->
  P (EvLog lvl msg) /\ (level_rank console <= level_rank lvl)%nat.
Proof.
  induction 1 as [|[c r| | |l m] t He Ht IH]; cbn [shown]; intros lvl msg Hin;
    try (now apply IH); [contradiction|].
  destruct (Nat.leb_spec (level_rank console) (level_rank l)) as [Hle|Hlt];
    [|now apply IH].
  destruct Hin as [[= <- <-]|Hin]; [auto|now apply IH].
Qed.

(** X9. Whatever the command, the pins and the answers of the tools,
    and however the invocation ends, a log console at the level INFO
    shows nothing but errors, and the only errors are a pin that
    [gpiofind] does not find and a command that is not recognised. *)
Theorem console_shows_only_two_errors env cmd led_pins lvl msg :
  In (lvl, msg) (shown INFO (snd (run (bt_switch cmd led_pins) env))) ->
  lvl = ERROR /\
  (msg = LStr "GPIO for LED not found" \/
   msg = LStr "Invalid command. Doing nothing.").
Proof.
  intros Hin.
  apply (@shown_forall
           (fun e => match e with
                     | EvLog DEBUG _ => True
                     | EvLog l m =>
                         l = ERROR /\
                         (m = LStr "GPIO for LED not found" \/
                          m = LStr "Invalid command. Doing nothing.")
                     | _ => True
                     end)) in Hin.
  - destruct Hin as [HP Hle]. destruct lvl; cbn in Hle; try exact HP; lia.
  - apply always_bt_switch; cbn; auto.
Qed.

Lemma console_shows_only_two_errors_witness :
  In (ERROR, LStr "GPIO for LED not found")
    (shown INFO
       (snd (run (bt_switch "speakers" [Some "GPIO99"; Some "GPIO17"])
               tools_connected))) /\
  ERROR = ERROR /\
  (LStr "GPIO for LED not found" = LStr "GPIO for LED not found" \/
   LStr "GPIO for LED not found" = LStr "Invalid command. Doing nothing.").
Proof.
  assert (H : In (ERROR, LStr "GPIO for LED not found")
    (shown INFO
       (snd (run (bt_switch "speakers" [Some "GPIO99"; Some "GPIO17"])
               tools_connected)))) by (vm_compute; auto).
  split; [exact H|].
  apply (@console_shows_only_two_errors tools_connected "speakers"
           [Some "GPIO99"; Some "GPIO17"] ERROR
           (LStr "GPIO for LED not found") H).
Defined.
Lemma step_pauses_find names : step_pauses (find_steps names) = [].
Proof. apply (step_pauses_calls (fun n => Exec ["gpiofind"; n])). Qed.

Lemma step_pauses_leds pins states : step_pauses (led_steps pins states) = [].
Proof. apply (step_pauses_calls (fun a => Exec ("gpioset" :: a))). Qed.

Lemma step_pauses_connect devices : step_pauses (connect_steps devices) = [].
Proof.
  apply (step_pauses_calls (fun d => Exec ["bluetoothctl"; "connect"; d])).
Qed.

Lemma asks_bluetooth_cases cmd out2 :
  asks_bluetooth cmd out2 = true ->
  (cmd = "toggle" /\ out2 = false) \/ cmd = "headphones".
Proof.
  unfold asks_bluetooth. intros H. apply orb_true_iff in H.
  destruct H as [H|H].
  - apply andb_true_iff in H. destruct H as [H1 H2].
    apply String.eqb_eq in H1. apply negb_true_iff in H2. auto.
  - apply String.eqb_eq in H. auto.
Qed.

(** X10. An invocation with a recognised command that runs to its end
    prints the two lines that name the output it switched to, and before
    them, exactly when the Bluetooth output was asked for and no device
    was connected, the line that announces the fallback. *)
Theorem printed_lines env cmd led_pins t :
  valid_command cmd = true ->
  run (bt_switch cmd led_pins) env = (Normal tt, t) ->
  exists target,
    enable_calls t =
      [Additive (Py.str_of_int target); Exclusive (Py.str_of_int target)] /\
    prints t =
      (if asks_bluetooth cmd (output2_enabled t)
          && negb (bluetooth_connected t)
       then [no_device_line] else [])
      ++ switch_lines target.
Proof.
  intros Hv H. use_shape H.
  exists (path_target p). split; [eapply shaped_enable_calls; eassumption|].
  erewrite shaped_output2, shaped_connected by eassumption.
  rewrite !prints_app, (prints_only Hfinds), (prints_only Hleds),
    recovery_prints.
  unfold asks_bluetooth.
  destruct p as [info|info devices connects blinks| |]; split_taken;
    cbn [String.eqb Ascii.eqb Bool.eqb andb orb negb path_events prints app
         path_target switch_events];
    repeat match goal with
           | H : Re.search _ _ = _ |- _ => rewrite H
           end;
    cbn [andb orb negb app];
    rewrite ?prints_app;
    repeat match goal with
           | H : Forall _ ?l |- context [prints ?l] => rewrite (prints_only H)
           end;
    try reflexivity.
Qed.

Lemma printed_lines_witness :
  valid_command "toggle" = true /\
  exists target,
    enable_calls (snd (run (bt_switch "toggle" sample_pins) tools_absent)) =
      [Additive (Py.str_of_int target); Exclusive (Py.str_of_int target)] /\
    prints (snd (run (bt_switch "toggle" sample_pins) tools_absent)) =
      (if asks_bluetooth "toggle"
            (output2_enabled
               (snd (run (bt_switch "toggle" sample_pins) tools_absent)))
          && negb (bluetooth_connected
                     (snd (run (bt_switch "toggle" sample_pins) tools_absent)))
       then [no_device_line] else [])
      ++ switch_lines target.
Proof.
  split; [reflexivity|].
  apply (@printed_lines tools_absent "toggle" sample_pins _);
    [reflexivity|vm_compute; reflexivity].
Defined.

(** X11. An invocation with a recognised command that runs to its end
    pauses once for a tenth of a second, between the two enable
    commands; when the Bluetooth output was asked for and no device was
    connected it pauses six times for a quarter of a second before
    that, and in no other case. *)
Theorem invocation_pauses env cmd led_pins t :
  valid_command cmd = true ->
  run (bt_switch cmd led_pins) env = (Normal tt, t) ->
  pauses t =
    (if asks_bluetooth cmd (output2_enabled t) && negb (bluetooth_connected t)
     then repeat (1 # 4) 6 else [])
    ++ [1 # 10].
Proof.
  intros Hv H. use_shape H.
  rewrite pauses_steps.
  erewrite shaped_steps by eassumption.
  erewrite shaped_output2, shaped_connected by eassumption.
  rewrite !step_pauses_app, Sfinds, Sleds, step_pauses_find, step_pauses_leds.
  match goal with
  | |- context [if stream_failed ?t then _ else _] =>
      destruct (stream_failed t)
  end;
  unfold asks_bluetooth;
  (destruct p as [info|info devices connects blinks| |]; split_taken;
    cbn [String.eqb Ascii.eqb Bool.eqb andb orb negb path_events steps app
         path_target step_pauses repeat];
    repeat match goal with
           | H : Re.search _ _ = _ |- _ => rewrite H
           end;
    cbn [andb orb negb app repeat];
    rewrite ?steps_app, ?step_pauses_app;
    repeat match goal with
           | H : steps _ = _ |- _ => rewrite H; clear H
           end;
    rewrite ?step_pauses_app, ?step_pauses_connect, ?step_pauses_blink;
    try reflexivity).
Qed.

Lemma invocation_pauses_witness :
  valid_command "headphones" = true /\
  pauses (snd (run (bt_switch "headphones" sample_pins) tools_absent)) =
    (if asks_bluetooth "headphones"
          (output2_enabled
             (snd (run (bt_switch "headphones" sample_pins) tools_absent)))
        && negb (bluetooth_connected
                   (snd (run (bt_switch "headphones" sample_pins)
                           tools_absent)))
     then repeat (1 # 4) 6 else [])
    ++ [1 # 10].
Proof.
  split; [reflexivity|].
  apply (@invocation_pauses tools_absent "headphones" sample_pins _);
    [reflexivity|vm_compute; reflexivity].
Defined.

(** X12. When the Bluetooth output is asked for and a device is
    connected, an invocation that runs to its end resolves the pins,
    queries the outputs and the connectivity, switches to output 2,
    checks the stream and sets the LEDs to (on, off): it lists no
    devices, tries no connect and does not blink. *)
Theorem bluetooth_primary env cmd led_pins t :
  run (bt_switch cmd led_pins) env = (Normal tt, t) ->
  asks_bluetooth cmd (output2_enabled t) = true ->
  bluetooth_connected t = true ->
  exists names,
    led_pins = map Some names /\
    steps t =
      find_steps names
      ++ [Call (Shell "mpc outputs");
          Call (Shell "bluetoothctl info");
          Call (Exec ["mpc"; "enable"; "2"]);
          Pause (1 # 10);
          Call (Exec ["mpc"; "enable"; "only"; "2"]);
          Call (Shell "mpc status")]
      ++ (if stream_failed t then [Call (Shell "mpc play")] else [])
      ++ led_steps (resolved t) [true; false].
Proof.
  intros H Ha Hbt.
  assert (Hv : valid_command cmd = true).
  { apply asks_bluetooth_cases in Ha. destruct Ha as [[-> _]| ->]; reflexivity. }
  clear Ha. use_shape H.
  erewrite shaped_connected in Hbt by eassumption.
  exists names. split; [assumption|].
  erewrite shaped_steps by eassumption.
  erewrite shaped_resolved by eassumption.
  destruct p as [info|info devices connects blinks| |]; try discriminate.
  cbn [path_events app steps path_target]. rewrite Sfinds, Sleds.
  cbn [app path_target led_pattern]. reflexivity.
Qed.

Lemma bluetooth_primary_witness :
  asks_bluetooth "toggle"
    (output2_enabled
       (snd (run (bt_switch "toggle" sample_pins) tools_connected))) = true /\
  bluetooth_connected
    (snd (run (bt_switch "toggle" sample_pins) tools_connected)) = true /\
  exists names,
    sample_pins = map Some names /\
    steps (snd (run (bt_switch "toggle" sample_pins) tools_connected)) =
      find_steps names
      ++ [Call (Shell "mpc outputs");
          Call (Shell "bluetoothctl info");
          Call (Exec ["mpc"; "enable"; "2"]);
          Pause (1 # 10);
          Call (Exec ["mpc"; "enable"; "only"; "2"]);
          Call (Shell "mpc status")]
      ++ (if stream_failed
               (snd (run (bt_switch "toggle" sample_pins) tools_connected))
          then [Call (Shell "mpc play")] else [])
      ++ led_steps
           (resolved
              (snd (run (bt_switch "toggle" sample_pins) tools_connected)))
           [true; false].
Proof.
  split; [vm_compute; reflexivity|]. split; [vm_compute; reflexivity|].
  apply (@bluetooth_primary tools_connected "toggle" sample_pins _);
    vm_compute; reflexivity.
Defined.

(** X13. When the Bluetooth output is asked for, no device is connected
    and the device list is not valid UTF-8, the invocation raises before
    any enable command: the fallback to the speakers does not take
    place, whatever the pins are. *)
Theorem undecodable_device_list_blocks_fallback env cmd led_pins :
  (forall k,
     asks_bluetooth cmd
       (Re.search (Re.output_enabled "2")
          (stdout (env k (Shell "mpc outputs")))) = true) ->
  (forall k,
     Re.search Re.bt_connected (stdout (env k (Shell "bluetoothctl info")))
     = false) ->
  (forall k,
     Py.decode (stdout (env k (Shell "bluetoothctl devices"))) = None) ->
  (exists x, fst (run (bt_switch cmd led_pins) env) = Raised x) /\
  enable_calls (snd (run (bt_switch cmd led_pins) env)) = [].
Proof.
  intros Ha Hi Hd.
  assert (Hv : valid_command cmd = true).
  { specialize (Ha 0%nat). apply asks_bluetooth_cases in Ha.
    destruct Ha as [[-> _]| ->]; reflexivity. }
  destruct (comprehension bt_find_led_pin led_pins env 0%nat) as [o finds]
    eqn:Ef.
  pose proof (find_pins_spec _ _ _ Ef) as (F & R & _).
  destruct o as [ds| |x]; [|congruence|].
  - assert (Hc : (cmd = "toggle" /\
                  forall k, Re.search (Re.output_enabled "2")
                              (stdout (env k (Shell "mpc outputs"))) = false)
                 \/ cmd = "headphones").
    { pose proof (Ha 0%nat) as H0. apply asks_bluetooth_cases in H0.
      destruct H0 as [[-> _]| ->]; [left|right; reflexivity].
      split; [reflexivity|]. intros k. specialize (Ha k).
      apply asks_bluetooth_cases in Ha.
      destruct Ha as [[_ Hk]|Hk]; [exact Hk|discriminate]. }
    destruct Hc as [[-> Ho]| ->];
      rewrite bt_switch_unfold; top; cbv delta [Py.str Py.bytes] in *;
      rewrite Ef; top; rewrite ?Ho; top; rewrite Hi; top;
      rewrite bt_connect_all_undecoded by apply Hd; top;
      (split; [eauto|]);
      rewrite enable_calls_app, (enable_calls_only F) by discriminate;
      reflexivity.
  - rewrite (@bt_switch_resolution_raises env cmd led_pins x finds Hv Ef).
    cbn [fst snd]. split; [eauto|].
    apply (enable_calls_only F). discriminate.
Qed.

Lemma undecodable_device_list_blocks_fallback_witness :
  (forall k,
     asks_bluetooth "headphones"
       (Re.search (Re.output_enabled "2")
          (stdout (tools_latin1 k (Shell "mpc outputs")))) = true) /\
  (forall k,
     Re.search Re.bt_connected
       (stdout (tools_latin1 k (Shell "bluetoothctl info"))) = false) /\
  (forall k,
     Py.decode (stdout (tools_latin1 k (Shell "bluetoothctl devices")))
     = None) /\
  (exists x,
     fst (run (bt_switch "headphones" sample_pins) tools_latin1) = Raised x) /\
  enable_calls (snd (run (bt_switch "headphones" sample_pins) tools_latin1))
  = [].
Proof.
  assert (H1 : forall k,
     asks_bluetooth "headphones"
       (Re.search (Re.output_enabled "2")
          (stdout (tools_latin1 k (Shell "mpc outputs")))) = true)
    by (intros k; vm_compute; reflexivity).
  assert (H2 : forall k,
     Re.search Re.bt_connected
       (stdout (tools_latin1 k (Shell "bluetoothctl info"))) = false)
    by (intros k; vm_compute; reflexivity).
  assert (H3 : forall k,
     Py.decode (stdout (tools_latin1 k (Shell "bluetoothctl devices")))
     = None)
    by (intros k; vm_compute; reflexivity).
  split; [exact H1|]. split; [exact H2|]. split; [exact H3|].
  apply (@undecodable_device_list_blocks_fallback tools_latin1 "headphones"
           sample_pins H1 H2 H3).
Defined.

(** ** The configuration and the script *)

Lemma config_path_eq fs cfg_file :
  (if negb (isabs cfg_file) then (script_dir fs ++ "/" ++ cfg_file)%string
   else cfg_file) = config_path fs cfg_file.
Proof. unfold config_path. now destruct (isabs cfg_file). Qed.

(** What [get_led_pin_config] returns, by what the file holds. *)
Lemma config_result fs cfg_file :
  fst (get_led_pin_config fs cfg_file) =
  match read fs (config_path fs cfg_file) with
  | NoFile => inr [None; None]
  | BadFile => inl ParsingError
  | File cfg =>
      if contains cfg "BluetoothToggleLed" then
        match get cfg "BluetoothToggleLed" "led_pin",
              get cfg "BluetoothToggleLed" "led_pin2" with
        | Broken, _ => inl InterpolationError
        | _, Broken => inl InterpolationError
        | v, v2 => inr [slot v; slot v2]
        end
      else inr [None; None]
  end.
Proof.
  unfold get_led_pin_config, cfg_read, cfg_get. rewrite !config_path_eq.
  destruct (read fs _) as [| |cfg]; cbn; auto.
  destruct (contains cfg "BluetoothToggleLed"); cbn; auto.
  destruct (get cfg "BluetoothToggleLed" "led_pin") as [|a|];
    destruct (get cfg "BluetoothToggleLed" "led_pin2") as [|b|];
    cbn; auto;
    try (destruct (a =? "")%string; cbn; auto);
    try (destruct (b =? "")%string; cbn; auto).
Qed.

Lemma config_logs_only fs cfg_file :
  calls (snd (get_led_pin_config fs cfg_file)) = [] /\
  prints (snd (get_led_pin_config fs cfg_file)) = [] /\
  steps (snd (get_led_pin_config fs cfg_file)) = [].
Proof.
  unfold get_led_pin_config, cfg_read, cfg_get.
  destruct (read fs _) as [| |cfg]; cbn; auto.
  destruct (contains cfg "BluetoothToggleLed"); cbn; auto.
  destruct (get cfg "BluetoothToggleLed" "led_pin") as [|a|];
    destruct (get cfg "BluetoothToggleLed" "led_pin2") as [|b|];
    cbn; auto;
    try (destruct (a =? "")%string; cbn; auto);
    try (destruct (b =? "")%string; cbn; auto).
Qed.

Lemma slot_not_empty v : slot v <> Some "".
Proof.
  destruct v as [|s|]; cbn; try discriminate.
  destruct (String.eqb_spec s ""); [discriminate|congruence].
Qed.

Lemma slot_some v s : slot v = Some s -> v = Present s /\ s <> "".
Proof.
  destruct v as [|s'|]; cbn; try discriminate.
  destruct (String.eqb_spec s' ""); [discriminate|].
  intros [= <-]. auto.
Qed.

(** The script with a command as its first argument and at most two
    arguments: the configuration, then [bt_switch]. *)
Lemma main_switch fs argv env cmd :
  nth_error argv 1 = Some cmd ->
  (length argv <= 3)%nat ->
  snd (main fs argv env) =
  match get_led_pin_config fs "../../settings/gpio_settings.ini" with
  | (inl e, t) => (UncaughtConfig e, t)
  | (inr cfg_led_pin, t) =>
      (ended_of (fst (run (bt_switch cmd cfg_led_pin) env)),
       t ++ snd (run (bt_switch cmd cfg_led_pin) env))
  end.
Proof.
  intros Hc Hl. unfold main. cbn [snd].
  assert (H2 : (2 <=? length argv)%nat = true).
  { apply Nat.leb_le. destruct argv as [|a [|b argv]]; try discriminate.
    simpl. lia. }
  assert (H3 : (length argv <=? 3)%nat = true) by now apply Nat.leb_le.
  rewrite H2, H3. cbn [andb].
  destruct (get_led_pin_config fs _) as [[e|l] t]; [reflexivity|].
  unfold run, bind at 1, index. rewrite Hc. unfold ret.
  cbn [ncalls Nat.add].
  destruct (bt_switch cmd l env 0%nat) as [o t']. reflexivity.
Qed.

(** X14. When [get_led_pin_config] returns, it returns exactly two
    slots, the primary pin first, and no slot holds an empty name: a key
    with an empty value counts as a key that is missing.  It raises only
    for a file that cannot be parsed or a value that cannot be
    interpolated, never for a file, a section or a key that is
    missing. *)
Theorem config_gives_two_slots fs cfg_file :
  match fst (get_led_pin_config fs cfg_file) with
  | inr l => exists a b, l = [a; b] /\ a <> Some "" /\ b <> Some ""
  | inl ParsingError => read fs (config_path fs cfg_file) = BadFile
  | inl InterpolationError =>
      exists cfg key,
        read fs (config_path fs cfg_file) = File cfg /\
        get cfg "BluetoothToggleLed" key = Broken
  end.
Proof.
  rewrite config_result.
  destruct (read fs (config_path fs cfg_file)) as [| |cfg] eqn:Er;
    [exists None, None; repeat split; discriminate|reflexivity|].
  destruct (contains cfg "BluetoothToggleLed");
    [|exists None, None; repeat split; discriminate].
  destruct (get cfg "BluetoothToggleLed" "led_pin") as [|a|] eqn:Ea;
    destruct (get cfg "BluetoothToggleLed" "led_pin2") as [|b|] eqn:Eb;
    try (do 2 eexists; split; [reflexivity|]; split; apply slot_not_empty);
    exists cfg; eexists; (split; [reflexivity|eassumption]).
Qed.

(** X15. Without a file at the place of the configuration, or with a
    file that has no section [BluetoothToggleLed], both slots are
    [None], and nothing above the level of a debug record is logged. *)
Theorem missing_config_gives_no_pins fs cfg_file :
  read fs (config_path fs cfg_file) = NoFile \/
  (exists cfg, read fs (config_path fs cfg_file) = File cfg /\
               contains cfg "BluetoothToggleLed" = false) ->
  fst (get_led_pin_config fs cfg_file) = inr [None; None] /\
  Forall (fun e => exists msg, e = EvLog DEBUG msg)
    (snd (get_led_pin_config fs cfg_file)).
Proof.
  intros H. split.
  - rewrite config_result.
    destruct H as [->|(cfg & -> & ->)]; reflexivity.
  - unfold get_led_pin_config, cfg_read. rewrite !config_path_eq.
    destruct H as [->|(cfg & -> & Hc)]; cbn; rewrite ?Hc; cbn;
      repeat constructor; eauto.
Qed.

Lemma missing_config_gives_no_pins_witness :
  (read (disk NoFile)
     (config_path (disk NoFile) "../../settings/gpio_settings.ini") = NoFile \/
   (exists cfg,
      read (disk NoFile)
        (config_path (disk NoFile) "../../settings/gpio_settings.ini")
      = File cfg /\
      contains cfg "BluetoothToggleLed" = false)) /\
  fst (get_led_pin_config (disk NoFile) "../../settings/gpio_settings.ini")
  = inr [None; None] /\
  Forall (fun e => exists msg, e = EvLog DEBUG msg)
    (snd (get_led_pin_config (disk NoFile) "../../settings/gpio_settings.ini")).
Proof.
  split; [left; reflexivity|].
  apply (@missing_config_gives_no_pins (disk NoFile)
           "../../settings/gpio_settings.ini").
  left; reflexivity.
Defined.

(** X16. The script, called with a recognised command, runs to its end
    only when the configuration file exists, has the section and gives
    a name that is not empty for both [led_pin] and [led_pin2]. *)
Theorem script_needs_both_pins fs argv env cmd lvl t :
  nth_error argv 1 = Some cmd ->
  (length argv <= 3)%nat ->
  valid_command cmd = true ->
  main fs argv env = (lvl, (Completed, t)) ->
  exists cfg a b,
    read fs (config_path fs "../../settings/gpio_settings.ini") = File cfg /\
    contains cfg "BluetoothToggleLed" = true /\
    get cfg "BluetoothToggleLed" "led_pin" = Present a /\ a <> "" /\
    get cfg "BluetoothToggleLed" "led_pin2" = Present b /\ b <> "".
Proof.
  intros Hc Hl Hv H. apply (f_equal snd) in H.
  rewrite (@main_switch fs argv env cmd Hc Hl) in H. cbn [snd] in H.
  pose proof (config_result fs "../../settings/gpio_settings.ini") as Hr.
  destruct (get_led_pin_config fs _) as [[e|l] t0]; [discriminate|].
  cbn [fst] in Hr.
  assert (Hn : ~ In None l).
  { intros Hin.
    destruct (@find_pins_none l env 0%nat Hin) as (x & evs & E & _).
    rewrite (@bt_switch_resolution_raises env cmd l x evs Hv E) in H.
    discriminate. }
  destruct (read fs _) as [| |cfg]; try discriminate;
    [injection Hr as ->; elim Hn; simpl; auto|].
  destruct (contains cfg "BluetoothToggleLed") eqn:Econt;
    [|injection Hr as ->; elim Hn; simpl; auto].
  exists cfg.
  destruct (get cfg "BluetoothToggleLed" "led_pin") as [|a|] eqn:Ea;
    destruct (get cfg "BluetoothToggleLed" "led_pin2") as [|b|] eqn:Eb;
    try discriminate; injection Hr as ->;
    try (elim Hn; simpl; auto; fail).
  exists a, b. cbn [slot] in Hn.
  destruct (String.eqb_spec a ""); [elim Hn; simpl; auto|].
  destruct (String.eqb_spec b ""); [elim Hn; simpl; auto|].
  auto 10.
Qed.

Lemma script_needs_both_pins_witness :
  nth_error ["bt-sink-switch.py"; "speakers"] 1 = Some "speakers" /\
  (length ["bt-sink-switch.py"; "speakers"] <= 3)%nat /\
  valid_command "speakers" = true /\
  fst (snd (main (disk (File both_keys)) ["bt-sink-switch.py"; "speakers"]
              tools_connected)) = Completed /\
  exists cfg a b,
    read (disk (File both_keys))
      (config_path (disk (File both_keys)) "../../settings/gpio_settings.ini")
    = File cfg /\
    contains cfg "BluetoothToggleLed" = true /\
    get cfg "BluetoothToggleLed" "led_pin" = Present a /\ a <> "" /\
    get cfg "BluetoothToggleLed" "led_pin2" = Present b /\ b <> "".
Proof.
  split; [reflexivity|]. split; [simpl; lia|]. split; [reflexivity|].
  split; [vm_compute; reflexivity|].
  apply (@script_needs_both_pins (disk (File both_keys))
           ["bt-sink-switch.py"; "speakers"] tools_connected "speakers"
           (fst (main (disk (File both_keys))
                   ["bt-sink-switch.py"; "speakers"] tools_connected))
           (snd (snd (main (disk (File both_keys))
                        ["bt-sink-switch.py"; "speakers"] tools_connected))));
    [reflexivity|simpl; lia|reflexivity|vm_compute; reflexivity].
Defined.

(** X17. Without a configuration file, the script called with a
    recognised command ends with an uncaught [TypeError] and has called
    no tool: it has neither queried nor switched the player. *)
Theorem unconfigured_script_fails fs argv env cmd :
  nth_error argv 1 = Some cmd ->
  (length argv <= 3)%nat ->
  valid_command cmd = true ->
  read fs (config_path fs "../../settings/gpio_settings.ini") = NoFile ->
  fst (snd (main fs argv env)) = Uncaught TypeError /\
  calls (snd (snd (main fs argv env))) = [] /\
  prints (snd (snd (main fs argv env))) = [].
Proof.
  intros Hc Hl Hv Hr.
  rewrite (@main_switch fs argv env cmd Hc Hl).
  pose proof (config_result fs "../../settings/gpio_settings.ini") as Hf.
  pose proof (config_logs_only fs "../../settings/gpio_settings.ini")
    as (Hcalls & Hprints & _).
  rewrite Hr in Hf.
  destruct (get_led_pin_config fs _) as [[e|l] t0]; [discriminate|].
  cbn [fst snd] in *. injection Hf as ->.
  rewrite (@bt_switch_resolution_raises env cmd [None; None] TypeError []
             Hv eq_refl).
  cbn [fst snd ended_of]. rewrite app_nil_r. auto.
Qed.

Lemma unconfigured_script_fails_witness :
  nth_error ["bt-sink-switch.py"; "toggle"] 1 = Some "toggle" /\
  (length ["bt-sink-switch.py"; "toggle"] <= 3)%nat /\
  valid_command "toggle" = true /\
  read (disk NoFile)
    (config_path (disk NoFile) "../../settings/gpio_settings.ini") = NoFile /\
  fst (snd (main (disk NoFile) ["bt-sink-switch.py"; "toggle"]
              tools_connected)) = Uncaught TypeError /\
  calls (snd (snd (main (disk NoFile) ["bt-sink-switch.py"; "toggle"]
                     tools_connected))) = [] /\
  prints (snd (snd (main (disk NoFile) ["bt-sink-switch.py"; "toggle"]
                      tools_connected))) = [].
Proof.
  split; [reflexivity|]. split; [simpl; lia|]. split; [reflexivity|].
  split; [reflexivity|].
  apply (@unconfigured_script_fails (disk NoFile)
           ["bt-sink-switch.py"; "toggle"] tools_connected "toggle");
    [reflexivity|simpl; lia|reflexivity|reflexivity].
Defined.

(** X18. Called with no argument or with more than two, the script
    prints the two lines of the usage, with its own name in the second,
    and does nothing else: it reads no configuration and calls no
    tool. *)
Theorem wrong_argument_count_prints_usage fs sname args env :
  length args <> 1%nat ->
  length args <> 2%nat ->
  main fs (sname :: args) env =
  (INFO,
   (Completed,
    [EvPrint "Usage";
     EvPrint ("  ./" ++ sname
              ++ " toggle | speakers | headphones | toggle2 | headphones2 [debug]")%string])).
Proof.
  intros H1 H2.
  destruct args as [|a [|b [|c args]]]; try (now elim H1); try (now elim H2);
    reflexivity.
Qed.

Lemma wrong_argument_count_prints_usage_witness :
  length (@nil Py.str) <> 1%nat /\
  length (@nil Py.str) <> 2%nat /\
  main (disk (File both_keys)) ["bt-sink-switch.py"] tools_connected =
  (INFO,
   (Completed,
    [EvPrint "Usage";
     EvPrint ("  ./" ++ "bt-sink-switch.py"
              ++ " toggle | speakers | headphones | toggle2 | headphones2 [debug]")%string])).
Proof.
  split; [discriminate|]. split; [discriminate|].
  apply (@wrong_argument_count_prints_usage (disk (File both_keys))
           "bt-sink-switch.py" [] tools_connected); discriminate.
Defined.

(** X19. With both keys configured, the script that runs to its end
    has resolved the value of [led_pin] first and the value of
    [led_pin2] second, and only then queried the outputs of the player:
    [led_pin] names the primary LED and [led_pin2] the secondary one. *)
Theorem script_resolves_configured_pins fs argv env cmd cfg a b lvl t :
  nth_error argv 1 = Some cmd ->
  (length argv <= 3)%nat ->
  valid_command cmd = true ->
  read fs (config_path fs "../../settings/gpio_settings.ini") = File cfg ->
  contains cfg "BluetoothToggleLed" = true ->
  get cfg "BluetoothToggleLed" "led_pin" = Present a ->
  get cfg "BluetoothToggleLed" "led_pin2" = Present b ->
  main fs argv env = (lvl, (Completed, t)) ->
  exists rest,
    steps t =
    [Call (Exec ["gpiofind"; a]); Call (Exec ["gpiofind"; b]);
     Call (Shell "mpc outputs")] ++ rest.
Proof.
  intros Hc Hl Hv Hr Hs Ea Eb H. apply (f_equal snd) in H.
  rewrite (@main_switch fs argv env cmd Hc Hl) in H. cbn [snd] in H.
  pose proof (config_result fs "../../settings/gpio_settings.ini") as Hf.
  pose proof (config_logs_only fs "../../settings/gpio_settings.ini")
    as (_ & _ & Hsteps).
  rewrite Hr, Hs, Ea, Eb in Hf.
  destruct (get_led_pin_config fs _) as [[e|l] t0]; [discriminate|].
  cbn [fst snd slot] in *.
  assert (Hn : ~ In None l).
  { intros Hin.
    destruct (@find_pins_none l env 0%nat Hin) as (x & evs & E & _).
    rewrite (@bt_switch_resolution_raises env cmd l x evs Hv E) in H.
    discriminate. }
  destruct (a =? "")%string; [injection Hf as ->; elim Hn; simpl; auto|].
  destruct (b =? "")%string; [injection Hf as ->; elim Hn; simpl; auto|].
  injection Hf as ->. clear Hn.
  destruct (run (bt_switch cmd [Some a; Some b]) env) as [o t1] eqn:E.
  cbn [fst snd] in H. injection H as Ho <-.
  destruct o as [[]| |x]; [| |discriminate].
  - use_shape E.
    rewrite steps_app, Hsteps, app_nil_l.
    erewrite shaped_steps by eassumption. rewrite Sfinds.
    destruct names as [|n1 [|n2 [|n3 names]]]; try discriminate.
    injection Hpins as <- <-. cbn [find_steps map app]. eauto.
  - pose proof (func_not_returned) as Hn. rewrite bt_switch_unfold in E.
    unfold run in E.
    match type of E with
    | func ?body env ?k = _ => specialize (Hn body env k); rewrite E in Hn
    end.
    now elim Hn.
Qed.

Lemma script_resolves_configured_pins_witness :
  nth_error ["bt-sink-switch.py"; "toggle"; "debug"] 1 = Some "toggle" /\
  (length ["bt-sink-switch.py"; "toggle"; "debug"] <= 3)%nat /\
  valid_command "toggle" = true /\
  read (disk (File both_keys))
    (config_path (disk (File both_keys)) "../../settings/gpio_settings.ini")
  = File both_keys /\
  contains both_keys "BluetoothToggleLed" = true /\
  get both_keys "BluetoothToggleLed" "led_pin" = Present "GPIO27" /\
  get both_keys "BluetoothToggleLed" "led_pin2" = Present "GPIO17" /\
  main (disk (File both_keys)) ["bt-sink-switch.py"; "toggle"; "debug"]
    tools_connected =
  (DEBUG,
   (Completed,
    snd (snd (main (disk (File both_keys))
                ["bt-sink-switch.py"; "toggle"; "debug"] tools_connected)))) /\
  exists rest,
    steps (snd (snd (main (disk (File both_keys))
                       ["bt-sink-switch.py"; "toggle"; "debug"]
                       tools_connected))) =
    [Call (Exec ["gpiofind"; "GPIO27"]); Call (Exec ["gpiofind"; "GPIO17"]);
     Call (Shell "mpc outputs")] ++ rest.
Proof.
  split; [reflexivity|]. split; [simpl; lia|]. split; [reflexivity|].
  split; [reflexivity|]. split; [reflexivity|]. split; [reflexivity|].
  split; [reflexivity|]. split; [vm_compute; reflexivity|].
  apply (@script_resolves_configured_pins (disk (File both_keys))
           ["bt-sink-switch.py"; "toggle"; "debug"] tools_connected "toggle"
           both_keys "GPIO27" "GPIO17" DEBUG
           (snd (snd (main (disk (File both_keys))
                        ["bt-sink-switch.py"; "toggle"; "debug"]
                        tools_connected))));
    [reflexivity|simpl; lia|reflexivity|reflexivity|reflexivity|reflexivity
    |reflexivity|vm_compute; reflexivity].
Defined.
(** ** The patterns and their meaning *)

Lemma append_nil_r (s : string) : (s ++ "")%string = s.
Proof.
  induction s as [|c s IH]; [reflexivity|].
  rewrite append_cons. now rewrite IH.
Qed.

Lemma append_assoc (a b c : string) :
  ((a ++ b) ++ c)%string = (a ++ b ++ c)%string.
Proof.
  induction a as [|x a IH]; [reflexivity|].
  rewrite !append_cons. now rewrite IH.
Qed.

Lemma append_eq_nil (a b : string) :
  (a ++ b)%string = "" -> a = "" /\ b = "".
Proof.
  destruct a as [|x a]; [rewrite append_nil_l; auto|].
  rewrite append_cons. discriminate.
Qed.

Lemma append_eq_cons (a b : string) c s :
  (a ++ b)%string = String c s ->
  (a = "" /\ b = String c s) \/
  (exists a', a = String c a' /\ s = (a' ++ b)%string).
Proof.
  destruct a as [|x a].
  - rewrite append_nil_l. auto.
  - rewrite append_cons. intros [= -> <-]. right. eauto.
Qed.

Lemma matches_empty s : ~ matches Re.Empty s.
Proof. intros H. inversion H. Qed.

Lemma nullable_matches r : Re.nullable r = true <-> matches r "".
Proof.
  split.
  - induction r as [| |p|r1 IH1 r2 IH2|r1 IH1 r2 IH2|r IH]; cbn;
      try discriminate; intros H.
    + constructor.
    + apply andb_true_iff in H. destruct H as [H1 H2].
      change "" with ("" ++ "")%string. constructor; auto.
    + apply orb_true_iff in H. destruct H as [H|H];
        [apply M_alt_l|apply M_alt_r]; auto.
    + constructor.
  - intros H. remember "" as s eqn:Es.
    induction H as [|p c Hc|r1 r2 s1 s2 H1 IH1 H2 IH2|r1 r2 s H IH|r1 r2 s H IH
                   |r|r s1 s2 H1 IH1 H2 IH2]; cbn; auto.
    + discriminate.
    + apply append_eq_nil in Es. destruct Es as [-> ->].
      now rewrite IH1, IH2.
    + now rewrite IH.
    + rewrite IH by assumption. apply orb_true_r.
Qed.

Lemma cat_matches r1 r2 s :
  matches (Re.cat r1 r2) s <-> matches (Re.Cat r1 r2) s.
Proof.
  assert (He1 : forall r, ~ matches (Re.Cat Re.Empty r) s).
  { intros r H. inversion H; subst. eapply matches_empty; eauto. }
  assert (He2 : forall r, ~ matches (Re.Cat r Re.Empty) s).
  { intros r H. inversion H; subst. eapply matches_empty; eauto. }
  assert (Hp : forall r, matches r s <-> matches (Re.Cat Re.Eps r) s).
  { intros r. split; intros H.
    - rewrite <- (append_nil_l s). constructor; [constructor|exact H].
    - inversion H as [| |? ? s1 s2 H1 H2| | | |]; subst.
      inversion H1; subst. now rewrite append_nil_l. }
  destruct r1, r2; cbn; try tauto;
    try (split; intros H; exfalso;
         solve [eapply matches_empty; eauto | eapply He1; eauto
               | eapply He2; eauto]);
    try apply Hp.
Qed.

Lemma alt_matches r1 r2 s :
  matches (Re.alt r1 r2) s <-> matches (Re.Alt r1 r2) s.
Proof.
  assert (Hl : forall r, matches r s <-> matches (Re.Alt Re.Empty r) s).
  { intros r. split; intros H; [now apply M_alt_r|].
    inversion H; subst; auto. exfalso. eapply matches_empty; eauto. }
  assert (Hr : forall r, matches r s <-> matches (Re.Alt r Re.Empty) s).
  { intros r. split; intros H; [now apply M_alt_l|].
    inversion H; subst; auto. exfalso. eapply matches_empty; eauto. }
  destruct r1, r2; cbn; try tauto; try apply Hl; try apply Hr.
Qed.

Lemma star_cons_inv r c s :
  matches (Re.Star r) (String c s) ->
  exists s1 s2,
    s = (s1 ++ s2)%string /\ matches r (String c s1) /\ matches (Re.Star r) s2.
Proof.
  intros H. remember (Re.Star r) as r' eqn:Er.
  remember (String c s) as t eqn:Et.
  induction H as [|p x Hx|r1 r2 s1 s2 H1 IH1 H2 IH2|r1 r2 u H IH|r1 r2 u H IH
                 |r0|r0 s1 s2 H1 IH1 H2 IH2]; try discriminate.
  injection Er as ->.
  apply append_eq_cons in Et. destruct Et as [[-> ->]|(a' & -> & ->)].
  - apply IH2; reflexivity.
  - eauto.
Qed.

Lemma deriv_matches c r : forall s,
  matches (Re.deriv c r) s <-> matches r (String c s).
Proof.
  induction r as [| |p|r1 IH1 r2 IH2|r1 IH1 r2 IH2|r IH]; intros s; cbn.
  - split; intros H; inversion H.
  - split; intros H; inversion H.
  - destruct (p c) eqn:Ep; split; intros H; inversion H; subst.
    + now constructor.
    + constructor.
    + congruence.
  - rewrite alt_matches. split; intros H.
    + inversion H as [| | |? ? ? H'|? ? ? H'| |]; subst.
      * apply cat_matches in H'.
        inversion H' as [| |? ? s1 s2 Ha Hb| | | |]; subst.
        apply IH1 in Ha. rewrite <- append_cons. now constructor.
      * destruct (Re.nullable r1) eqn:En;
          [|exfalso; eapply matches_empty; eauto].
        apply nullable_matches in En. apply IH2 in H'.
        rewrite <- (append_nil_l (String c s)). now constructor.
    + inversion H as [| |? ? s1 s2 Ha Hb| | | |]; subst.
      match goal with
      | E : (_ ++ _)%string = String _ _ |- _ =>
          apply append_eq_cons in E; destruct E as [[-> ->]|(a' & -> & ->)]
      end.
      * apply M_alt_r. apply nullable_matches in Ha. rewrite Ha.
        now apply IH2.
      * apply M_alt_l. apply cat_matches. constructor; [now apply IH1|auto].
  - rewrite alt_matches. split; intros H; inversion H; subst.
    + apply M_alt_l. now apply IH1.
    + apply M_alt_r. now apply IH2.
    + apply M_alt_l. now apply IH1.
    + apply M_alt_r. now apply IH2.
  - rewrite cat_matches. split; intros H.
    + inversion H as [| |? ? s1 s2 Ha Hb| | | |]; subst.
      apply IH in Ha. rewrite <- append_cons. now constructor.
    + apply star_cons_inv in H. destruct H as (s1 & s2 & -> & Ha & Hb).
      constructor; [now apply IH|auto].
Qed.

Lemma match_prefix_matches s : forall r,
  Re.match_prefix r s = true <->
  exists p rest, s = (p ++ rest)%string /\ matches r p.
Proof.
  induction s as [|c s IH]; intros r; cbn [Re.match_prefix].
  - rewrite orb_false_r, nullable_matches. split.
    + intros H. exists "", "". auto.
    + intros (p & rest & E & H). symmetry in E.
      apply append_eq_nil in E. destruct E as [-> _]. exact H.
  - rewrite orb_true_iff, nullable_matches, IH. split.
    + intros [H|(p & rest & -> & H)].
      * exists "", (String c s). auto.
      * exists (String c p), rest. split; [reflexivity|].
        now apply deriv_matches.
    + intros (p & rest & E & H). symmetry in E.
      apply append_eq_cons in E. destruct E as [[-> _]|(p' & -> & ->)];
        [left; exact H|right].
      exists p', rest. split; [reflexivity|]. now apply deriv_matches.
Qed.

Lemma search_nil r : Re.search r "" = Re.match_prefix r "" || false.
Proof. reflexivity. Qed.

Lemma search_cons r c s :
  Re.search r (String c s) = Re.match_prefix r (String c s) || Re.search r s.
Proof. reflexivity. Qed.

Lemma search_matches r s :
  Re.search r s = true <->
  exists before p rest, s = (before ++ p ++ rest)%string /\ matches r p.
Proof.
  induction s as [|c s IH]; [rewrite search_nil|rewrite search_cons].
  - rewrite orb_false_r, match_prefix_matches. split.
    + intros (p & rest & E & H). exists "", p, rest. auto.
    + intros (b & p & rest & E & H). symmetry in E.
      apply append_eq_nil in E. destruct E as [-> E].
      exists p, rest. auto.
  - rewrite orb_true_iff, match_prefix_matches, IH. split.
    + intros [(p & rest & E & H)|(b & p & rest & -> & H)].
      * exists "", p, rest. auto.
      * exists (String c b), p, rest. auto.
    + intros (b & p & rest & E & H). destruct b as [|x b].
      * left. exists p, rest. auto.
      * rewrite append_cons in E. injection E as -> ->. right.
        exists b, p, rest. auto.
Qed.

Lemma lit_matches l : forall s, matches (Re.Lit l) s <-> s = l.
Proof.
  induction l as [|c l IH]; intros s; cbn [Re.Lit].
  - split; intros H; [now inversion H|subst; constructor].
  - split; intros H.
    + inversion H as [| |? ? s1 s2 Ha Hb| | | |]; subst.
      inversion Ha as [|? x Hx| | | | |]; subst.
      apply Ascii.eqb_eq in Hx. subst x.
      apply IH in Hb. subst s2. reflexivity.
    + subst s. change (String c l) with (String c "" ++ l)%string.
      constructor; [constructor; apply Ascii.eqb_refl|now apply IH].
Qed.

Lemma star_chr_matches p : forall s,
  matches (Re.Star (Re.Chr p)) s <-> all_in p s = true.
Proof.
  unfold all_in. split.
  - intros H. remember (Re.Star (Re.Chr p)) as r eqn:Er.
    induction H as [|q x Hx|r1 r2 s1 s2 H1 IH1 H2 IH2|r1 r2 u H IH|r1 r2 u H IH
                   |r0|r0 s1 s2 H1 IH1 H2 IH2]; try discriminate;
      [reflexivity|].
    injection Er as ->. inversion H1; subst.
    rewrite append_cons, append_nil_l. cbn [list_ascii_of_string forallb].
    rewrite IH2 by reflexivity. now rewrite H0.
  - induction s as [|c s IH]; cbn [list_ascii_of_string forallb].
    + constructor.
    + intros H. apply andb_true_iff in H. destruct H as [Hc Hs].
      change (String c s) with (String c "" ++ s)%string.
      constructor; [now constructor|auto].
Qed.

Lemma cat_inv r1 r2 s :
  matches (Re.Cat r1 r2) s ->
  exists s1 s2, s = (s1 ++ s2)%string /\ matches r1 s1 /\ matches r2 s2.
Proof. intros H. inversion H; subst. eauto. Qed.

Lemma chr_inv p s :
  matches (Re.Chr p) s -> exists c, s = String c "" /\ p c = true.
Proof. intros H. inversion H; subst. eauto. Qed.

(** A pattern of two literal texts with a run of one class between. *)
Lemma between_matches a p b s :
  Re.search (Re.Cat (Re.Lit a) (Re.Cat (Re.Star (Re.Chr p)) (Re.Lit b))) s
  = true <->
  exists before middle rest,
    s = (before ++ a ++ middle ++ b ++ rest)%string /\ all_in p middle = true.
Proof.
  rewrite search_matches. split.
  - intros (before & t & rest & -> & H).
    apply cat_inv in H. destruct H as (s1 & s2 & -> & Ha & Hb).
    apply cat_inv in Hb. destruct Hb as (s3 & s4 & -> & Hc & Hd).
    apply lit_matches in Ha, Hd. apply star_chr_matches in Hc. subst.
    exists before, s3, rest. split; [|exact Hc].
    now rewrite !append_assoc.
  - intros (before & middle & rest & -> & Hm).
    exists before, (a ++ middle ++ b)%string, rest. split.
    + now rewrite !append_assoc.
    + constructor; [now apply lit_matches|].
      constructor; [now apply star_chr_matches|now apply lit_matches].
Qed.

(** X20. [re.search] as the script uses it agrees with the meaning of
    the pattern: it finds a match exactly when some part of the text is
    matched by the pattern as a whole. *)
Theorem search_finds_matches r s :
  Re.search r s = true <->
  exists before part rest,
    s = (before ++ part ++ rest)%string /\ matches r part.
Proof. apply search_matches. Qed.

(** X21. The script takes output 2 (or 3) of the player for enabled
    exactly when the answer of [mpc outputs] holds the text [Output 2]
    (or [Output 3]) and, later on the same line, the text [enabled]. *)
Theorem output_enabled_meaning n s :
  Re.search (Re.output_enabled n) s = true <->
  exists before middle rest,
    s = (before ++ ("Output " ++ n) ++ middle ++ "enabled" ++ rest)%string /\
    all_in Re.dot middle = true.
Proof. unfold Re.output_enabled. apply between_matches. Qed.

(** X22. The script takes the stream for failed exactly when the status
    of the player holds the text [ERROR:] and, later on the same line,
    the text [output]. *)
Theorem mpc_error_meaning s :
  Re.search Re.mpc_error s = true <->
  exists before middle rest,
    s = (before ++ "ERROR:" ++ middle ++ "output" ++ rest)%string /\
    all_in Re.dot middle = true.
Proof. unfold Re.mpc_error. apply between_matches. Qed.

(** X23. The script takes a Bluetooth device for connected exactly when
    the answer of [bluetoothctl info] holds the text [Connected:], then
    one or more characters of white space, then the text [yes]. *)
Theorem bt_connected_meaning s :
  Re.search Re.bt_connected s = true <->
  exists before c middle rest,
    s = (before ++ "Connected:" ++ String c middle ++ "yes" ++ rest)%string /\
    Re.space c = true /\ all_in Re.space middle = true.
Proof.
  unfold Re.bt_connected, Re.Plus. rewrite search_matches. split.
  - intros (before & t & rest & -> & H).
    apply cat_inv in H. destruct H as (s1 & s2 & -> & Ha & Hb).
    apply cat_inv in Hb. destruct Hb as (s3 & s4 & -> & Hc & Hd).
    apply cat_inv in Hc. destruct Hc as (s5 & s6 & -> & He & Hf).
    apply chr_inv in He. destruct He as (c & -> & Hsp).
    apply lit_matches in Ha, Hd. apply star_chr_matches in Hf. subst.
    exists before, c, s6, rest. split; [|auto].
    rewrite !append_assoc, !append_cons, !append_nil_l. reflexivity.
  - intros (before & c & middle & rest & -> & Hc & Hm).
    exists before, ("Connected:" ++ String c middle ++ "yes")%string, rest.
    split.
    + now rewrite !append_assoc.
    + constructor; [now apply lit_matches|].
      constructor; [|now apply lit_matches].
      change (String c middle) with (String c "" ++ middle)%string.
      constructor; [now constructor|now apply star_chr_matches].
Qed.

